(** * Simply: a directory-convention task runner (src/lib/Simply.js)

    A shallow embedding of the class [Simply] and the properties of its
    task execution, dependency aggregation and installation.

    The class talks to the outside through [child_process.execSync],
    [fs.readFileSync], [JSON.parse], [path.join], [process.cwd] and the
    three scanners of [./helper] ([getTasks], [getConfig], [scanTasksDir]).
    They are the fields of an environment record [Env]; every method of the
    class is a function of that environment.  A method is a computation in
    a small monad that threads the state of the outside world and writes
    the trace of what the method did there: scans, file reads, process
    launches and [console.log] calls, in program order. *)

From Stdlib Require Import List String Ascii ZArith NArith Lia Bool Arith.
From Stdlib Require Import Decimal DecimalString Permutation.
Import ListNotations.
Local Open Scope string_scope.
Local Open Scope list_scope.

(** String concatenation, the [+] and the template literals of the code. *)
Infix "+++" := String.append (right associativity, at level 60) : string_scope.

(** ** JavaScript values

    The values [JSON.parse] can return, and [undefined], which reading an
    absent property gives.  A number is carried as the text JavaScript
    prints for it: of a number the code only uses that text and whether
    the number is zero, and zero is the number that prints [0].  An object
    is the list of its own enumerable data properties in creation order;
    reading a property takes the first binding of its name. *)

#[local] Set Warnings "-register-all".

Inductive Value : Type :=
| JUndefined
| JNull
| JBool (b : bool)
| JNumber (text : string)
| JString (s : string)
| JArray (elems : list Value)
| JObject (props : list (string * Value)).

Definition Props : Type := list (string * Value).

(** What [if (v)] and [v || d] test. *)
Definition truthy (v : Value) : bool :=
  match v with
  | JUndefined | JNull => false
  | JBool b => b
  | JNumber text => negb (text =? "0")
  | JString s => negb (s =? "")
  | JArray _ | JObject _ => true
  end.

Definition dquote : string := String "034" "".

(** *** Own properties and their order *)

Definition index_name (n : N) : string := NilZero.string_of_uint (N.to_uint n).

(** An array index is the canonical decimal text of an integer below
    2^32 - 1. *)
Definition array_index (name : string) : option N :=
  match NilEmpty.uint_of_string name with
  | Some u =>
      let n := N.of_uint u in
      if (index_name n =? name) && (n <? 4294967295)%N then Some n else None
  | None => None
  end.

Definition is_index (p : string * Value) : bool :=
  match array_index (fst p) with Some _ => true | None => false end.

Definition index_of (p : string * Value) : N :=
  match array_index (fst p) with Some n => n | None => 0%N end.

Fixpoint insert_by_index (p : string * Value) (l : Props) : Props :=
  match l with
  | [] => [p]
  | q :: r =>
      if (index_of p <? index_of q)%N then p :: q :: r
      else q :: insert_by_index p r
  end.

Definition sort_by_index (l : Props) : Props :=
  fold_right insert_by_index [] l.

(** The own properties of an object in the order [Object.keys] lists them:
    array indices first, ascending, then the other names in creation
    order. *)
Definition ordered_props (props : Props) : Props :=
  sort_by_index (filter is_index props)
    ++ filter (fun p => negb (is_index p)) props.

Fixpoint chars_from (i : N) (s : string) : Props :=
  match s with
  | EmptyString => []
  | String c r => (index_name i, JString (String c "")) :: chars_from (N.succ i) r
  end.

Fixpoint elems_from (i : N) (l : list Value) : Props :=
  match l with
  | [] => []
  | x :: r => (index_name i, x) :: elems_from (N.succ i) r
  end.

(** The enumerable own properties of a value that is not [undefined] or
    [null]: those of an object, the elements of an array, the characters
    of a string; a number or a boolean has none. *)
Definition own_props (v : Value) : Props :=
  match v with
  | JObject props => ordered_props props
  | JArray elems => elems_from 0 elems
  | JString s => chars_from 0 s
  | _ => []
  end.

(** *** Errors *)

Inductive JsError : Type :=
| SystemError (message : string)
| SyntaxError (message : string)
| TypeError (message : string).

(** A call that returns or throws. *)
Definition Result (A : Type) : Type := (JsError + A)%type.

Definition own_keys (v : Value) : list string := map fst (own_props v).

(** [Object.keys(v)] *)
Definition Object_keys (v : Value) : Result (list string) :=
  match v with
  | JUndefined | JNull =>
      inl (TypeError "Cannot convert undefined or null to object")
  | _ => inr (own_keys v)
  end.

Fixpoint lookup (name : string) (props : Props) : option Value :=
  match props with
  | [] => None
  | (k, v) :: r => if k =? name then Some v else lookup name r
  end.

(** [o[name]] for an enumerable own property, [undefined] when absent. *)
Definition js_get (o : Value) (name : string) : Value :=
  match o with
  | JObject props =>
      match lookup name props with Some v => v | None => JUndefined end
  | _ =>
      match lookup name (own_props o) with Some v => v | None => JUndefined end
  end.

(** [v.name]: reading a property of [undefined] or [null] throws. *)
Definition getProp (v : Value) (name : string) : Result Value :=
  match v with
  | JUndefined =>
      inl (TypeError ("Cannot read property '" +++ name +++ "' of undefined"))
  | JNull =>
      inl (TypeError ("Cannot read property '" +++ name +++ "' of null"))
  | _ => inr (js_get v name)
  end.

Definition has_own (name : string) (props : Props) : bool :=
  match lookup name props with
  | Some _ => true
  | None => false
  end.

(** The text of a value inside a template literal.  An object is
    converted by its [toString]: the inherited one gives
    [[object Object]]; an own property of that name, which in parsed JSON
    is never a function, leaves no way to convert and the conversion
    throws.  An array joins the texts of its elements. *)
Fixpoint ToString (v : Value) : Result string :=
  match v with
  | JUndefined => inr "undefined"
  | JNull => inr "null"
  | JBool true => inr "true"
  | JBool false => inr "false"
  | JNumber text => inr text
  | JString s => inr s
  | JArray elems =>
      (fix join (l : list Value) : Result string :=
         match l with
         | [] => inr ""
         | x :: r =>
             let sx := match x with
                       | JUndefined | JNull => inr ""
                       | _ => ToString x
                       end in
             match r with
             | [] => sx
             | _ :: _ =>
                 match sx with
                 | inl error => inl error
                 | inr a =>
                     match join r with
                     | inl error => inl error
                     | inr b => inr (a +++ "," +++ b)
                     end
                 end
             end
         end) elems
  | JObject props =>
      if has_own "toString" props
      then inl (TypeError "Cannot convert object to primitive value")
      else inr "[object Object]"
  end.

(** *** Assignment to a property of a plain object *)

(** Writing an own data property: an existing property keeps its place, a
    new one is created last. *)
Fixpoint put_own (props : Props) (name : string) (v : Value) : Props :=
  match props with
  | [] => [(name, v)]
  | (k, x) :: r =>
      if k =? name then (k, v) :: r else (k, x) :: put_own r name v
  end.

(** The prototype of an object: [Object.prototype], as every object
    literal starts with, nothing, or a parsed value (an object or an
    array, whose own prototype chain leads to [Object.prototype]). *)
Inductive Proto : Type :=
| ObjectPrototype
| NullPrototype
| ValuePrototype (v : Value).

(** A plain object: its own properties and its prototype. *)
Record Obj : Type := {
  own : Props;
  proto : Proto
}.

(** [{}] *)
Definition empty_object : Obj := {| own := []; proto := ObjectPrototype |}.

(** Whether a write of [__proto__] to an object without such an own
    property finds the setter of [Object.prototype] on the prototype
    chain: not below no prototype, and not below a parsed object that has
    [__proto__] as an own data property. *)
Definition setter_reached (p : Proto) : bool :=
  match p with
  | ObjectPrototype => true
  | NullPrototype => false
  | ValuePrototype (JObject props) => negb (has_own "__proto__" props)
  | ValuePrototype _ => true
  end.

(** [o[name] = v].  An own property is overwritten and an absent one is
    created, except that a write of [__proto__] that reaches the setter of
    [Object.prototype] creates nothing: it replaces the prototype when the
    value is an object, an array or [null] and does nothing otherwise. *)
Definition js_set (o : Obj) (name : string) (v : Value) : Obj :=
  if (name =? "__proto__") && negb (has_own name (own o))
     && setter_reached (proto o)
  then match v with
       | JNull => {| own := own o; proto := NullPrototype |}
       | JObject _ | JArray _ => {| own := own o; proto := ValuePrototype v |}
       | _ => o
       end
  else {| own := put_own (own o) name v; proto := proto o |}.

(** ** The data of the runner *)

(** An entry of a scan of [./helper]: the fields the class reads. *)
Record Item : Type := {
  path : string;
  pathAbs : string;
  type : string
}.

(** The configuration object of the constructor; an absent field is
    [None]. *)
Record Config : Type := {
  rootDir : option string;
  tasksDir : option string;
  extBinary : option (list string);
  extScript : option (list string);
  extConfig : option (list string)
}.

(** The instance: the constructor keeps the task directory only. *)
Record Simply : Type := {
  _directory : string
}.

(** ** The outside world *)

(** The argument of a [console.log] call. *)
Inductive Printed : Type :=
| Text (s : string)
| Caught (e : JsError).

Inductive Event : Type :=
| EvGetTasks (dir : string)
| EvGetConfig (dir : string)
| EvScanTasksDir (dir sub : string)
| EvReadFile (file : string)
| EvExec (command : string)
| EvLog (p : Printed).

(** The collaborators of the class.  [World] is the state of the file
    system and of whatever else a child process can change; a scan or a
    read looks at it, [execSync] runs a command line in it and returns the
    captured output or throws. *)
Record Env : Type := {
  World : Type;
  process_cwd : string;
  path_join : string -> string -> string;
  getTasks : World -> string -> list Item;
  getConfig : World -> string -> list Item;
  scanTasksDir : World -> string -> string -> list Item;
  readFileSync : World -> string -> Result string;
  JSON_parse : string -> Result Value;
  execSync : World -> string -> Result string * World
}.

(** *** The monad of the methods *)

Definition M (W A : Type) : Type := W -> A * list Event * W.

Definition ret {W A : Type} (a : A) : M W A := fun w => (a, [], w).

Definition bind {W A B : Type} (m : M W A) (k : A -> M W B) : M W B :=
  fun w =>
    let '(a, t1, w1) := m w in
    let '(b, t2, w2) := k a w1 in
    (b, t1 ++ t2, w2).

Declare Scope js_scope.
Delimit Scope js_scope with js.
Notation "x <- m ;; k" := (bind m (fun x => k))
  (at level 61, m at next level, right associativity) : js_scope.
Notation "m ;; k" := (bind m (fun _ => k))
  (at level 61, right associativity) : js_scope.
Local Open Scope js_scope.

Definition trace_of {W A : Type} (r : A * list Event * W) : list Event :=
  snd (fst r).
Definition value_of {W A : Type} (r : A * list Event * W) : A :=
  fst (fst r).
Definition world_of {W A : Type} (r : A * list Event * W) : W :=
  snd r.

Arguments trace_of {W A} !r /.
Arguments value_of {W A} !r /.
Arguments world_of {W A} !r /.

(** [items.forEach(f)] and a [for] loop over an array. *)
Fixpoint forEach {W A : Type} (l : list A) (f : A -> M W unit) : M W unit :=
  match l with
  | [] => ret tt
  | x :: r => f x ;; forEach r f
  end.

(** A [for] loop whose body updates a local object. *)
Fixpoint forAcc {W A S : Type} (l : list A) (f : A -> S -> M W S) (s : S)
  : M W S :=
  match l with
  | [] => ret s
  | x :: r => s1 <- f x s ;; forAcc r f s1
  end.

(** ** The class *)

(** [a || d] on an optional string: absent and empty are falsy. *)
Definition or_string (a : option string) (d : string) : string :=
  match a with
  | Some s => if s =? "" then d else s
  | None => d
  end.

(** [a || d] on an optional array: every array is truthy. *)
Definition or_array (a : option (list string)) (d : list string)
  : list string :=
  match a with
  | Some l => l
  | None => d
  end.

Definition empty_config : Config :=
  {| rootDir := None; tasksDir := None;
     extBinary := None; extScript := None; extConfig := None |}.

(** The command line of an item: [Some] for a script or a binary, [None]
    where [_execItem] returns at once. *)
Definition item_command (item : Item) : option string :=
  if type item =? "script" then Some ("node " +++ pathAbs item)
  else if type item =? "binary" then Some (pathAbs item)
  else None.

(** The body of a [for] loop of [_getDependencies]:
    [dependencies[key] = src[key]] for each key. *)
Definition copy_props (src : Value) (keys : list string) (dependencies : Obj)
  : Obj :=
  fold_left (fun d key => js_set d key (js_get src key)) keys dependencies.

(** [if (config.field) { for (let key of Object.keys(config.field)) ... }]:
    the object after the statement, or what it throws. *)
Definition merge_field (config : Value) (field : string) (dependencies : Obj)
  : Result Obj :=
  match getProp config field with
  | inl error => inl error
  | inr src =>
      if truthy src then
        match Object_keys src with
        | inl error => inl error
        | inr keys => inr (copy_props src keys dependencies)
        end
      else inr dependencies
  end.

Section Methods.

Context (E : Env).

Definition console_log (p : Printed) : M (World E) unit :=
  fun w => (tt, [EvLog p], w).

Definition scan_tasks (dir : string) : M (World E) (list Item) :=
  fun w => (getTasks E w dir, [EvGetTasks dir], w).

Definition scan_config (dir : string) : M (World E) (list Item) :=
  fun w => (getConfig E w dir, [EvGetConfig dir], w).

Definition scan_dir (dir sub : string) : M (World E) (list Item) :=
  fun w => (scanTasksDir E w dir sub, [EvScanTasksDir dir sub], w).

Definition read_file (file : string) : M (World E) (Result string) :=
  fun w => (readFileSync E w file, [EvReadFile file], w).

Definition exec (command : string) : M (World E) (Result string) :=
  fun w => let '(r, w1) := execSync E w command in (r, [EvExec command], w1).

(** [constructor(config)].  The defaults are written into the
    configuration object, which is the caller's when one is passed; the
    instance keeps [_directory]. *)
Definition constructor (config : option Config) : Simply * Config :=
  let config := match config with Some c => c | None => empty_config end in
  let rootDir1 := or_string (rootDir config) (process_cwd E) in
  let tasksDir1 := or_string (tasksDir config) "tasks" in
  let extBinary1 := or_array (extBinary config) [""; "sh"; "bat"; "exe"] in
  let extScript1 := or_array (extScript config) ["js"] in
  let extConfig1 := or_array (extConfig config) ["json"] in
  ({| _directory := path_join E rootDir1 tasksDir1 |},
   {| rootDir := Some rootDir1; tasksDir := Some tasksDir1;
      extBinary := Some extBinary1; extScript := Some extScript1;
      extConfig := Some extConfig1 |}).

(** [_execItem(item)] *)
Definition _execItem (item : Item) : M (World E) unit :=
  match item_command item with
  | None => ret tt
  | Some command =>
      console_log (Text ("- " +++ pathAbs item)) ;;
      r <- exec command ;;
      match r with
      | inr output =>
          if output =? "" then ret tt else console_log (Text output)
      | inl error => console_log (Caught error)
      end
  end.

(** [_execTask(item)] *)
Definition _execTask (this : Simply) (item : Item) : M (World E) unit :=
  items <- scan_dir (_directory this) (path item) ;;
  forEach items _execItem.

(** The loop of [_getTask]: the first entry whose [path] is the name. *)
Fixpoint first_with_path (tasks : list Item) (task : string) : option Item :=
  match tasks with
  | [] => None
  | t :: r => if path t =? task then Some t else first_with_path r task
  end.

(** [_getTask(task)] *)
Definition _getTask (this : Simply) (task : string) : M (World E) (option Item) :=
  tasks <- scan_tasks (_directory this) ;;
  ret (first_with_path tasks task).

(** [runTask(task)] *)
Definition runTask (this : Simply) (task : string) : M (World E) unit :=
  item <- _getTask this task ;;
  match item with
  | None => console_log (Text ("Task " +++ task +++ " not found."))
  | Some item =>
      console_log (Text ("Running task " +++ dquote +++ task +++ dquote +++ ":")) ;;
      _execTask this item
  end.

(** [run(tasks)] *)
Definition run (this : Simply) (tasks : option (list string)) : M (World E) unit :=
  let tasks := match tasks with Some l => l | None => [] end in
  (if (List.length tasks =? 0)%nat
   then console_log (Text "No tasks specified.")
   else ret tt) ;;
  forEach tasks (runTask this).

(** [list()] *)
Definition list_tasks (this : Simply) : M (World E) unit :=
  console_log (Text "The following tasks are available:") ;;
  tasks <- scan_tasks (_directory this) ;;
  forEach tasks (fun t => console_log (Text ("-- " +++ path t))).

(** One turn of the loop of [_getDependencies]: the [try] block and its
    [catch].  What was copied before a throw stays in the object. *)
Definition collect_entry (item : Item) (dependencies : Obj) : M (World E) Obj :=
  r <- read_file (pathAbs item) ;;
  match r with
  | inl error => console_log (Caught error) ;; ret dependencies
  | inr data =>
      match JSON_parse E data with
      | inl error => console_log (Caught error) ;; ret dependencies
      | inr config =>
          match merge_field config "dependencies" dependencies with
          | inl error => console_log (Caught error) ;; ret dependencies
          | inr d1 =>
              match merge_field config "devDependencies" d1 with
              | inl error => console_log (Caught error) ;; ret d1
              | inr d2 => ret d2
              end
          end
      end
  end.

(** [_getDependencies()] *)
Definition _getDependencies (this : Simply) : M (World E) Obj :=
  items <- scan_config (_directory this) ;;
  forAcc items collect_entry empty_object.

(** The command line of [install] for one key, [dependencies] being the
    own properties of the aggregate; the conversion of the version can
    throw. *)
Definition install_command (dependencies : Props) (suffix key : string)
  : Result string :=
  match ToString (js_get (JObject dependencies) key) with
  | inl error => inl error
  | inr version => inr ("npm i " +++ key +++ "@" +++ version +++ suffix)
  end.

(** One turn of the loop of [install]: the [try] block, which builds the
    command line, prints it and launches it, and its [catch]. *)
Definition install_entry (dependencies : Props) (suffix key : string)
  : M (World E) unit :=
  match install_command dependencies suffix key with
  | inl error => console_log (Caught error)
  | inr command =>
      console_log (Text command) ;;
      r <- exec command ;;
      match r with
      | inr output =>
          if output =? "" then ret tt else console_log (Text output)
      | inl error => console_log (Caught error)
      end
  end.

(** [install(save)] *)
Definition install (this : Simply) (save : bool) : M (World E) unit :=
  console_log (Text "Installing task dependencies...") ;;
  let suffix := if save then " -D" else "" in
  dependencies <- _getDependencies this ;;
  forEach (own_keys (JObject (own dependencies)))
          (install_entry (own dependencies) suffix).

End Methods.

Arguments console_log {E} p _.
Arguments exec {E} command _.

(** ** Member classification *)

Inductive Kind : Type :=
| KGroup
| KScript
| KBinary
| KConfig
| KOther.

(** The text after the last dot of a name, [None] without a dot. *)
Fixpoint after_last_dot (name : string) : option string :=
  match name with
  | EmptyString => None
  | String c r =>
      match after_last_dot r with
      | Some e => Some e
      | None => if (c =? ".")%char then Some r else None
      end
  end.

(** Modelled from the spec: the extension of a file name as the scanner of
    [./helper] takes it ([helper.js] is not among the sources).  A name
    without a dot has the empty extension. *)
Definition extension (name : string) : string :=
  match after_last_dot name with
  | Some e => e
  | None => ""
  end.

Definition mem_string (s : string) (l : list string) : bool :=
  existsb (String.eqb s) l.

(** Modelled from the spec: the classification of a group member by
    [listGroupMembers] ([scanTasksDir] of [./helper], which is not among
    the sources): the extension is looked up in the binary set, then the
    script set, then the config set. *)
Definition classify (config : Config) (name : string) : Kind :=
  let e := extension name in
  if mem_string e (or_array (extBinary config) []) then KBinary
  else if mem_string e (or_array (extScript config) []) then KScript
  else if mem_string e (or_array (extConfig config) []) then KConfig
  else KOther.

(** Modelled from the spec: the [type] field of an entry of a kind.  The
    two that [_execItem] tests are its literals; the others are not read by
    the class. *)
Definition kind_type (k : Kind) : string :=
  match k with
  | KGroup => "directory"
  | KScript => "script"
  | KBinary => "binary"
  | KConfig => "config"
  | KOther => "other"
  end.

(** Modelled from the spec: the extension sets the scanner of [./helper]
    works with when nothing else is configured, as the spec lists them.
    They are the sets the constructor writes as defaults; the class itself
    hands the scanner the task directory only. *)
Definition scanner_defaults : Config :=
  {| rootDir := None; tasksDir := None;
     extBinary := Some [""; "sh"; "bat"; "exe"];
     extScript := Some ["js"];
     extConfig := Some ["json"] |}.

(** ** The command line as the shell reads it

    [execSync] hands its command line to the system shell.  A command line
    made of plain words is split at blanks; the first word is the program
    and the others are its arguments.  Quoting, expansion and operators are
    not modelled: [shell_plain] holds of the texts that have none of the
    characters that trigger them. *)

Definition shell_blank (c : ascii) : bool :=
  (c =? " ")%char || (c =? "009")%char || (c =? "010")%char.

Fixpoint string_mem (c : ascii) (s : string) : bool :=
  match s with
  | EmptyString => false
  | String d r => (c =? d)%char || string_mem c r
  end.

Definition shell_operators : string :=
  "|&;<>$`\'?[]#~=%!{}()*" +++ dquote.

Definition shell_special (c : ascii) : bool :=
  shell_blank c || string_mem c shell_operators.

Fixpoint shell_plain (s : string) : bool :=
  match s with
  | EmptyString => true
  | String c r => negb (shell_special c) && shell_plain r
  end.

Fixpoint split_blanks (s : string) : list string :=
  match s with
  | EmptyString => [""]
  | String c r =>
      if shell_blank c then "" :: split_blanks r
      else match split_blanks r with
           | w :: ws => String c w :: ws
           | [] => [String c ""]
           end
  end.

Definition shell_words (s : string) : list string :=
  filter (fun w => negb (w =? "")) (split_blanks s).

Record Invocation : Type := {
  program : string;
  arguments : list string
}.

Definition shell_invocation (command : string) : option Invocation :=
  match shell_words command with
  | [] => None
  | p :: args => Some {| program := p; arguments := args |}
  end.

(** ** Reading a trace *)

(** The command lines launched, in order. *)
Fixpoint attempts (t : list Event) : list string :=
  match t with
  | [] => []
  | EvExec command :: r => command :: attempts r
  | _ :: r => attempts r
  end.

(** The number of scans of the task catalogue. *)
Fixpoint resolutions (t : list Event) : nat :=
  match t with
  | [] => 0
  | EvGetTasks _ :: r => S (resolutions r)
  | _ :: r => resolutions r
  end.

(** What the class runs: a script or a binary. *)
Definition is_runnable (item : Item) : bool :=
  (type item =? "script") || (type item =? "binary").

(** ** The assignments of the aggregation

    The aggregate seen from the spec: every config entry contributes a
    sequence of assignments [dependencies[key] = value], those of its
    [dependencies] mapping and then those of its [devDependencies] mapping;
    an entry that cannot be read or parsed contributes none. *)

Definition field_writes (config : Value) (field : string) : Props :=
  match getProp config field with
  | inr src =>
      if truthy src then map (fun key => (key, js_get src key)) (own_keys src)
      else []
  | inl _ => []
  end.

Definition entry_writes (E : Env) (w : World E) (item : Item) : Props :=
  match readFileSync E w (pathAbs item) with
  | inr data =>
      match JSON_parse E data with
      | inr config =>
          field_writes config "dependencies"
            ++ field_writes config "devDependencies"
      | inl _ => []
      end
  | inl _ => []
  end.

Definition apply_writes (writes : Props) (dependencies : Obj) : Obj :=
  fold_left (fun d kv => js_set d (fst kv) (snd kv)) writes dependencies.


(** Reading the file of an entry throws, or parsing what was read does. *)
Definition entry_fails (E : Env) (w : World E) (item : Item) (error : JsError)
  : Prop :=
  readFileSync E w (pathAbs item) = inl error
  \/ exists data,
      readFileSync E w (pathAbs item) = inr data
      /\ JSON_parse E data = inl error.

(** ** A small installation

    A task directory with two groups and three config files, a launcher
    that fails on one script and on one package, and a parser that knows
    the two well-formed config files.  The world is the list of the command
    lines run so far, latest first. *)

Module Demo.

Definition dir : string := "/srv/app/tasks".

Definition entry (rel kind : string) : Item :=
  {| path := rel; pathAbs := dir +++ "/" +++ rel; type := kind |}.

Definition groups : list Item :=
  [entry "build" "directory"; entry "deploy" "directory"].

Definition members (sub : string) : list Item :=
  if sub =? "deploy" then
    [entry "deploy/a.js" "script"; entry "deploy/b.js" "script";
     entry "deploy/notes.txt" "other"; entry "deploy/config.json" "config";
     entry "deploy/run" "binary"; entry "deploy/c.js" "script"]
  else if sub =? "build" then [entry "build/compile.js" "script"]
  else [].

Definition configs : list Item :=
  [entry "groupA/config.json" "config"; entry "broken/config.json" "config";
   entry "gone/config.json" "config"; entry "groupB/config.json" "config"].

Definition quoted (s : string) : string := dquote +++ s +++ dquote.

Definition textA : string :=
  "{" +++ quoted "dependencies" +++ ":{" +++ quoted "x" +++ ":"
      +++ quoted "1.0.0" +++ "," +++ quoted "y" +++ ":" +++ quoted "0.1.0"
      +++ "}," +++ quoted "devDependencies" +++ ":{" +++ quoted "y" +++ ":"
      +++ quoted "0.2.0" +++ "}}".

Definition textB : string :=
  "{" +++ quoted "dependencies" +++ ":{" +++ quoted "x" +++ ":"
      +++ quoted "2.0.0" +++ "}}".

Definition valueA : Value :=
  JObject [("dependencies",
            JObject [("x", JString "1.0.0"); ("y", JString "0.1.0")]);
           ("devDependencies", JObject [("y", JString "0.2.0")])].

Definition valueB : Value :=
  JObject [("dependencies", JObject [("x", JString "2.0.0")])].

Definition read (file : string) : Result string :=
  if file =? pathAbs (entry "groupA/config.json" "config") then inr textA
  else if file =? pathAbs (entry "groupB/config.json" "config") then inr textB
  else if file =? pathAbs (entry "broken/config.json" "config") then inr "{oops"
  else inl (SystemError ("ENOENT: no such file or directory, open '"
                           +++ file +++ "'")).

Definition parse (text : string) : Result Value :=
  if text =? textA then inr valueA
  else if text =? textB then inr valueB
  else inl (SyntaxError "Unexpected token o in JSON at position 1").

Definition launch (w : list string) (command : string)
  : Result string * list string :=
  if (command =? "node " +++ dir +++ "/deploy/b.js")
     || (command =? "npm i x@2.0.0")
  then (inl (SystemError ("Command failed: " +++ command)), command :: w)
  else (inr "", command :: w).

Definition env : Env :=
  {| World := list string;
     process_cwd := "/srv/app";
     path_join := fun a b => a +++ "/" +++ b;
     getTasks := fun _ _ => groups;
     getConfig := fun _ _ => configs;
     scanTasksDir := fun _ _ sub => members sub;
     readFileSync := fun _ file => read file;
     JSON_parse := parse;
     execSync := launch |}.

Definition simply : Simply := fst (constructor env None).

End Demo.

(** ** More readers of a trace *)

(** The files read, in order. *)
Fixpoint reads (t : list Event) : list string :=
  match t with
  | [] => []
  | EvReadFile file :: r => file :: reads r
  | _ :: r => reads r
  end.

(** ** A second installation

    Three config files: one holds the JSON [null], one the empty object
    and one an object without dependency fields.  Every launch succeeds
    and prints [done]. *)

Module Sample.

Definition configs : list Item :=
  [Demo.entry "nothing/config.json" "config";
   Demo.entry "empty/config.json" "config";
   Demo.entry "plain/config.json" "config"].

Definition read (file : string) : Result string :=
  if file =? pathAbs (Demo.entry "nothing/config.json" "config")
  then inr "null"
  else if file =? pathAbs (Demo.entry "empty/config.json" "config")
  then inr "{}"
  else if file =? pathAbs (Demo.entry "plain/config.json" "config")
  then inr ("{" +++ Demo.quoted "name" +++ ":" +++ Demo.quoted "plain" +++ "}")
  else inl (SystemError ("ENOENT: no such file or directory, open '"
                           +++ file +++ "'")).

Definition parse (text : string) : Result Value :=
  if text =? "null" then inr JNull
  else if text =? "{}" then inr (JObject [])
  else if text =? "{" +++ Demo.quoted "name" +++ ":" +++ Demo.quoted "plain"
                      +++ "}"
  then inr (JObject [("name", JString "plain")])
  else inl (SyntaxError "Unexpected end of JSON input").

Definition launch (w : list string) (command : string)
  : Result string * list string :=
  (inr "done", command :: w).

Definition env : Env :=
  {| World := list string;
     process_cwd := "/srv/app";
     path_join := fun a b => a +++ "/" +++ b;
     getTasks := fun _ _ => Demo.groups;
     getConfig := fun _ _ => configs;
     scanTasksDir := fun _ _ sub => Demo.members sub;
     readFileSync := fun _ file => read file;
     JSON_parse := parse;
     execSync := launch |}.

Definition simply : Simply := fst (constructor env None).

End Sample.

(** ** A third installation

    Two config files whose [dependencies] have the key [__proto__]; the
    first also has it in its [devDependencies] and gives the package [x]
    an object with a [toString] property as its version.  Every launch
    succeeds and prints nothing. *)

Module Quirk.

Definition configs : list Item :=
  [Demo.entry "first/config.json" "config";
   Demo.entry "second/config.json" "config"].

Definition text1 : string :=
  "{" +++ Demo.quoted "dependencies" +++ ":{" +++ Demo.quoted "__proto__"
      +++ ":" +++ Demo.quoted "1.0.0" +++ "," +++ Demo.quoted "x" +++ ":{"
      +++ Demo.quoted "toString" +++ ":" +++ Demo.quoted "1.0.0" +++ "}},"
      +++ Demo.quoted "devDependencies" +++ ":{" +++ Demo.quoted "__proto__"
      +++ ":" +++ Demo.quoted "1.5.0" +++ "}}".

Definition text2 : string :=
  "{" +++ Demo.quoted "dependencies" +++ ":{" +++ Demo.quoted "__proto__"
      +++ ":" +++ Demo.quoted "2.0.0" +++ "," +++ Demo.quoted "y" +++ ":"
      +++ Demo.quoted "2.0.0" +++ "}}".

Definition value1 : Value :=
  JObject [("dependencies",
            JObject [("__proto__", JString "1.0.0");
                     ("x", JObject [("toString", JString "1.0.0")])]);
           ("devDependencies", JObject [("__proto__", JString "1.5.0")])].

Definition value2 : Value :=
  JObject [("dependencies",
            JObject [("__proto__", JString "2.0.0"); ("y", JString "2.0.0")])].

Definition read (file : string) : Result string :=
  if file =? pathAbs (Demo.entry "first/config.json" "config") then inr text1
  else if file =? pathAbs (Demo.entry "second/config.json" "config")
  then inr text2
  else inl (SystemError ("ENOENT: no such file or directory, open '"
                           +++ file +++ "'")).

Definition parse (text : string) : Result Value :=
  if text =? text1 then inr value1
  else if text =? text2 then inr value2
  else inl (SyntaxError "Unexpected end of JSON input").

Definition launch (w : list string) (command : string)
  : Result string * list string :=
  (inr "", command :: w).

Definition env : Env :=
  {| World := list string;
     process_cwd := "/srv/app";
     path_join := fun a b => a +++ "/" +++ b;
     getTasks := fun _ _ => Demo.groups;
     getConfig := fun _ _ => configs;
     scanTasksDir := fun _ _ sub => Demo.members sub;
     readFileSync := fun _ file => read file;
     JSON_parse := parse;
     execSync := launch |}.

Definition simply : Simply := fst (constructor env None).

End Quirk.

(** * Properties *)

(** ** Loops *)

Lemma result_eta {W A : Type} (r : A * list Event * W) :
  r = (value_of r, trace_of r, world_of r).
Proof. destruct r as [[a t] w]. reflexivity. Qed.

Lemma unit_result_eta {W : Type} (r : unit * list Event * W) :
  r = (tt, trace_of r, world_of r).
Proof. destruct r as [[[] t] w]. reflexivity. Qed.

Lemma bind_run {W A B : Type} (m : M W A) (k : A -> M W B) (w : W) :
  bind m k w =
  (value_of (k (value_of (m w)) (world_of (m w))),
   trace_of (m w) ++ trace_of (k (value_of (m w)) (world_of (m w))),
   world_of (k (value_of (m w)) (world_of (m w)))).
Proof.
  unfold bind. destruct (m w) as [[a t1] w1]. cbn.
  destruct (k a w1) as [[b t2] w2]. reflexivity.
Qed.

Lemma forEach_cons {W A : Type} (f : A -> M W unit) (x : A) (l : list A)
      (w : W) :
  forEach (x :: l) f w =
  (tt, trace_of (f x w) ++ trace_of (forEach l f (world_of (f x w))),
   world_of (forEach l f (world_of (f x w)))).
Proof.
  cbn [forEach]. rewrite bind_run.
  destruct (forEach l f (world_of (f x w))) as [[[] t] w']. reflexivity.
Qed.

Lemma forEach_app {W A : Type} (f : A -> M W unit) (l1 l2 : list A) (w : W) :
  forEach (l1 ++ l2) f w =
  (tt,
   trace_of (forEach l1 f w)
     ++ trace_of (forEach l2 f (world_of (forEach l1 f w))),
   world_of (forEach l2 f (world_of (forEach l1 f w)))).
Proof.
  revert w. induction l1 as [|x l1 IH]; intro w.
  - cbn. apply unit_result_eta.
  - rewrite <- app_comm_cons, !forEach_cons, IH. cbn.
    rewrite app_assoc. reflexivity.
Qed.

Lemma forAcc_cons {W A S : Type} (f : A -> S -> M W S) (x : A) (l : list A)
      (s : S) (w : W) :
  forAcc (x :: l) f s w =
  (value_of (forAcc l f (value_of (f x s w)) (world_of (f x s w))),
   trace_of (f x s w)
     ++ trace_of (forAcc l f (value_of (f x s w)) (world_of (f x s w))),
   world_of (forAcc l f (value_of (f x s w)) (world_of (f x s w)))).
Proof. cbn [forAcc]. apply bind_run. Qed.

Lemma forAcc_app {W A S : Type} (f : A -> S -> M W S) (l1 l2 : list A)
      (s : S) (w : W) :
  forAcc (l1 ++ l2) f s w =
  (value_of (forAcc l2 f (value_of (forAcc l1 f s w))
                    (world_of (forAcc l1 f s w))),
   trace_of (forAcc l1 f s w)
     ++ trace_of (forAcc l2 f (value_of (forAcc l1 f s w))
                         (world_of (forAcc l1 f s w))),
   world_of (forAcc l2 f (value_of (forAcc l1 f s w))
                    (world_of (forAcc l1 f s w)))).
Proof.
  revert s w. induction l1 as [|x l1 IH]; intros s w.
  - cbn. apply result_eta.
  - rewrite <- app_comm_cons, !forAcc_cons, IH. cbn.
    rewrite app_assoc. reflexivity.
Qed.

Lemma attempts_app (t1 t2 : list Event) :
  attempts (t1 ++ t2) = attempts t1 ++ attempts t2.
Proof.
  induction t1 as [|e t1 IH]; [reflexivity|].
  destruct e; cbn; rewrite IH; reflexivity.
Qed.

Lemma resolutions_app (t1 t2 : list Event) :
  resolutions (t1 ++ t2) = resolutions t1 + resolutions t2.
Proof.
  induction t1 as [|e t1 IH]; [reflexivity|].
  destruct e; cbn; rewrite IH; reflexivity.
Qed.

(** ** Running the members of a group *)

(** Case analysis on the outcome of a launch and on whether it printed
    anything. *)
Ltac by_outcome :=
  repeat match goal with
         | |- context [fst (execSync ?E ?w ?c)] =>
             destruct (fst (execSync E w c)) as [?error|?output]
         | |- context [if (?o =? "")%string then _ else _] =>
             destruct (o =? "")%string
         end;
  reflexivity.

Section Execution.

Context (E : Env).

(** What [_execItem] does with a runnable item, by the outcome of the
    launch. *)
Lemma execItem_run (item : Item) (command : string) (w : World E) :
  item_command item = Some command ->
  _execItem E item w =
  (tt,
   [EvLog (Text ("- " +++ pathAbs item)); EvExec command]
     ++ match fst (execSync E w command) with
        | inl error => [EvLog (Caught error)]
        | inr output => if output =? "" then [] else [EvLog (Text output)]
        end,
   snd (execSync E w command)).
Proof.
  intro Hc. unfold _execItem. rewrite Hc.
  unfold bind, console_log, exec.
  destruct (execSync E w command) as [[error|output] w1]; cbn.
  - reflexivity.
  - destruct (output =? ""); reflexivity.
Qed.

Lemma execItem_skip (item : Item) (w : World E) :
  item_command item = None -> _execItem E item w = (tt, [], w).
Proof. intro Hc. unfold _execItem. rewrite Hc. reflexivity. Qed.

Lemma item_command_runnable (item : Item) :
  item_command item = None <-> is_runnable item = false.
Proof.
  unfold item_command, is_runnable.
  destruct (type item =? "script"), (type item =? "binary"); cbn;
    split; congruence.
Qed.

Lemma attempts_execItem (item : Item) (w : World E) :
  map Some (attempts (trace_of (_execItem E item w))) =
  if is_runnable item then [item_command item] else [].
Proof.
  destruct (item_command item) as [command|] eqn:Hc.
  - rewrite (execItem_run _ _ _ Hc).
    assert (Hr : is_runnable item = true).
    { destruct (is_runnable item) eqn:Hr; [reflexivity|].
      apply item_command_runnable in Hr. congruence. }
    rewrite Hr. cbn.
    by_outcome.
  - rewrite (execItem_skip _ _ Hc).
    apply item_command_runnable in Hc. rewrite Hc. reflexivity.
Qed.

Lemma attempts_forEach_execItem (items : list Item) (w : World E) :
  map Some (attempts (trace_of (forEach items (_execItem E) w))) =
  map item_command (filter is_runnable items).
Proof.
  revert w. induction items as [|item items IH]; intro w.
  - reflexivity.
  - rewrite forEach_cons. cbn [trace_of fst snd].
    rewrite attempts_app, map_app, IH, attempts_execItem. cbn [filter].
    destruct (is_runnable item); reflexivity.
Qed.

Lemma execTask_run (this : Simply) (item : Item) (w : World E) :
  _execTask E this item w =
  (tt,
   EvScanTasksDir (_directory this) (path item)
     :: trace_of (forEach (scanTasksDir E w (_directory this) (path item))
                          (_execItem E) w),
   world_of (forEach (scanTasksDir E w (_directory this) (path item))
                     (_execItem E) w)).
Proof.
  unfold _execTask, bind, scan_dir.
  destruct (forEach _ _ w) as [[[] t] w1]. reflexivity.
Qed.

End Execution.

(** C1.  Failure isolation in a group.  When the launch of a member of a
    group fails (the command exits non-zero or cannot be started, so
    [execSync] throws), the error is caught and printed, and the members
    after it are run as they would be on their own from the world the
    failed launch leaves: the trace of the task is the trace of the members
    before, the three events of the failing member, and the trace of the
    members after; every runnable member of the list is launched, in
    order. *)
Theorem execTask_failure_isolated
        (E : Env) (this : Simply) (group : Item) (pre post : list Item)
        (m : Item) (command : string) (error : JsError) (w w2 : World E) :
  scanTasksDir E w (_directory this) (path group) = pre ++ m :: post ->
  item_command m = Some command ->
  execSync E (world_of (forEach pre (_execItem E) w)) command
    = (inl error, w2) ->
  trace_of (_execTask E this group w)
    = EvScanTasksDir (_directory this) (path group)
        :: trace_of (forEach pre (_execItem E) w)
        ++ [EvLog (Text ("- " +++ pathAbs m)); EvExec command;
            EvLog (Caught error)]
        ++ trace_of (forEach post (_execItem E) w2)
  /\ world_of (_execTask E this group w)
     = world_of (forEach post (_execItem E) w2)
  /\ map Some (attempts (trace_of (_execTask E this group w)))
     = map item_command (filter is_runnable (pre ++ m :: post)).
Proof.
  intros Hscan Hc Hx.
  rewrite execTask_run, Hscan. cbn [trace_of world_of fst snd].
  split; [|split].
  - rewrite forEach_app, forEach_cons. cbn [trace_of world_of fst snd].
    rewrite (execItem_run E _ _ _ Hc), Hx. reflexivity.
  - rewrite forEach_app, forEach_cons. cbn [trace_of world_of fst snd].
    rewrite (execItem_run E _ _ _ Hc), Hx. reflexivity.
  - change (attempts (EvScanTasksDir (_directory this) (path group)
                        :: ?t)) with (attempts t).
    apply attempts_forEach_execItem.
Qed.

Lemma execTask_failure_isolated_witness :
  trace_of (_execTask Demo.env Demo.simply (Demo.entry "deploy" "directory") [])
    = [EvScanTasksDir "/srv/app/tasks" "deploy";
       EvLog (Text "- /srv/app/tasks/deploy/a.js");
       EvExec "node /srv/app/tasks/deploy/a.js";
       EvLog (Text "- /srv/app/tasks/deploy/b.js");
       EvExec "node /srv/app/tasks/deploy/b.js";
       EvLog (Caught (SystemError
                        "Command failed: node /srv/app/tasks/deploy/b.js"));
       EvLog (Text "- /srv/app/tasks/deploy/run");
       EvExec "/srv/app/tasks/deploy/run";
       EvLog (Text "- /srv/app/tasks/deploy/c.js");
       EvExec "node /srv/app/tasks/deploy/c.js"].
Proof.
  apply (execTask_failure_isolated
           Demo.env Demo.simply (Demo.entry "deploy" "directory")
           [Demo.entry "deploy/a.js" "script"]
           [Demo.entry "deploy/notes.txt" "other";
            Demo.entry "deploy/config.json" "config";
            Demo.entry "deploy/run" "binary";
            Demo.entry "deploy/c.js" "script"]
           (Demo.entry "deploy/b.js" "script")
           "node /srv/app/tasks/deploy/b.js"
           (SystemError "Command failed: node /srv/app/tasks/deploy/b.js")
           []
           ["node /srv/app/tasks/deploy/b.js";
            "node /srv/app/tasks/deploy/a.js"]);
    reflexivity.
Defined.

(** C2.  Running a group launches exactly its scripts and binaries, in the
    order of the scan: the command lines launched are those of the members
    whose type is [script] or [binary], one each and in order; on the
    other members [_execItem] does nothing at all (no command line, no
    launch, no output). *)
Theorem execTask_runs_scripts_and_binaries
        (E : Env) (this : Simply) (group : Item) (w : World E) :
  map Some (attempts (trace_of (_execTask E this group w)))
    = map item_command
          (filter is_runnable
                  (scanTasksDir E w (_directory this) (path group)))
  /\ forEach (filter (fun m => negb (is_runnable m))
                     (scanTasksDir E w (_directory this) (path group)))
             (_execItem E) w
     = (tt, [], w).
Proof.
  split.
  - rewrite execTask_run. cbn [trace_of fst snd attempts].
    apply attempts_forEach_execItem.
  - induction (scanTasksDir E w (_directory this) (path group))
      as [|m items IH]; [reflexivity|].
    cbn [filter]. destruct (is_runnable m) eqn:Hr; cbn [negb]; [exact IH|].
    rewrite forEach_cons, (execItem_skip E m w)
      by (apply item_command_runnable, Hr).
    cbn [trace_of world_of fst snd]. rewrite IH. reflexivity.
Qed.

(** ** Resolving task names *)

Lemma first_with_path_none (tasks : list Item) (task : string) :
  first_with_path tasks task = None <->
  (forall g, In g tasks -> path g <> task).
Proof.
  induction tasks as [|t tasks IH]; cbn.
  - split; [intros _ g []|reflexivity].
  - destruct (String.eqb_spec (path t) task) as [Heq|Hne].
    + split; [discriminate|]. intro H. exfalso. apply (H t); auto.
    + rewrite IH. split.
      * intros H g [<-|Hg]; auto.
      * intros H g Hg. apply H. auto.
Qed.

Lemma runTask_unknown (E : Env) (this : Simply) (task : string) (w : World E) :
  first_with_path (getTasks E w (_directory this)) task = None ->
  runTask E this task w
  = (tt,
     [EvGetTasks (_directory this);
      EvLog (Text ("Task " +++ task +++ " not found."))],
     w).
Proof.
  intro H. unfold runTask, _getTask, bind, scan_tasks, ret. cbn.
  rewrite H. reflexivity.
Qed.

(** C3.  A name that is the [path] of no entry of the task catalogue
    (compared as strings) is answered by the message that the task was not
    found and nothing else: the catalogue is scanned once, the members of
    no group are scanned, no command is launched and the world is left as
    it was. *)
Theorem runTask_not_found
        (E : Env) (this : Simply) (task : string) (w : World E) :
  (forall g, In g (getTasks E w (_directory this)) -> path g <> task) ->
  runTask E this task w
  = (tt,
     [EvGetTasks (_directory this);
      EvLog (Text ("Task " +++ task +++ " not found."))],
     w)
  /\ attempts (trace_of (runTask E this task w)) = [].
Proof.
  intro H. apply first_with_path_none in H.
  rewrite (runTask_unknown E this task w H). split; reflexivity.
Qed.

Lemma runTask_not_found_witness :
  runTask Demo.env Demo.simply "release" []
  = (tt,
     [EvGetTasks "/srv/app/tasks"; EvLog (Text "Task release not found.")],
     [])
  /\ attempts (trace_of (runTask Demo.env Demo.simply "release" [])) = [].
Proof.
  apply (runTask_not_found Demo.env Demo.simply "release" []).
  intros g Hg. cbn in Hg.
  destruct Hg as [<-|[<-|[]]]; discriminate.
Defined.

Lemma resolutions_execItem (E : Env) (item : Item) (w : World E) :
  resolutions (trace_of (_execItem E item w)) = 0.
Proof.
  destruct (item_command item) as [command|] eqn:Hc.
  - rewrite (execItem_run E _ _ _ Hc). cbn.
    by_outcome.
  - rewrite (execItem_skip E _ _ Hc). reflexivity.
Qed.

Lemma resolutions_execItems (E : Env) (items : list Item) (w : World E) :
  resolutions (trace_of (forEach items (_execItem E) w)) = 0.
Proof.
  revert w. induction items as [|item items IH]; intro w; [reflexivity|].
  rewrite forEach_cons. cbn [trace_of fst snd].
  rewrite resolutions_app, resolutions_execItem, IH. reflexivity.
Qed.

Lemma runTask_known (E : Env) (this : Simply) (task : string) (item : Item)
      (w : World E) :
  first_with_path (getTasks E w (_directory this)) task = Some item ->
  runTask E this task w
  = (tt,
     [EvGetTasks (_directory this);
      EvLog (Text ("Running task " +++ dquote +++ task +++ dquote +++ ":"))]
       ++ trace_of (_execTask E this item w),
     world_of (_execTask E this item w)).
Proof.
  intro H. unfold runTask, _getTask, bind, scan_tasks, ret, console_log.
  rewrite H. destruct (_execTask E this item w) as [[[] t] w1]. reflexivity.
Qed.

Lemma resolutions_runTask (E : Env) (this : Simply) (task : string)
      (w : World E) :
  resolutions (trace_of (runTask E this task w)) = 1.
Proof.
  destruct (first_with_path (getTasks E w (_directory this)) task)
    as [item|] eqn:Hf.
  - rewrite (runTask_known E this task item w Hf), execTask_run.
    cbn [trace_of world_of fst snd]. rewrite resolutions_app.
    cbn [resolutions]. rewrite resolutions_execItems. reflexivity.
  - rewrite (runTask_unknown E this task w Hf). reflexivity.
Qed.

Lemma resolutions_runTasks (E : Env) (this : Simply) (tasks : list string)
      (w : World E) :
  resolutions (trace_of (forEach tasks (runTask E this) w)) = List.length tasks.
Proof.
  revert w. induction tasks as [|t tasks IH]; intro w; [reflexivity|].
  rewrite forEach_cons. cbn [trace_of fst snd].
  rewrite resolutions_app, resolutions_runTask, IH. reflexivity.
Qed.

Lemma run_some (E : Env) (this : Simply) (t : string) (tasks : list string)
      (w : World E) :
  run E this (Some (t :: tasks)) w = forEach (t :: tasks) (runTask E this) w.
Proof.
  unfold run. cbn [List.length Nat.eqb]. unfold bind, ret.
  destruct (forEach (t :: tasks) (runTask E this) w) as [[[] tr] w1].
  reflexivity.
Qed.

(** C4.  A list of task names is run name by name in the order given.  The
    run of [pre ++ t :: post] is the run of [pre], then the turn of [t] in
    the world [pre] leaves, then the run of [post] in the world that turn
    leaves; the catalogue is resolved once per name.  The turn of [t] is
    read off the catalogue of that moment.  When an entry of it has [t] as
    its [path] ([hit] is true), the task is announced, the members of the
    group [t] are scanned and run, failing members printed and passed,
    and the launches are the scripts and binaries of the group in order.
    When no entry has ([hit] is false), the turn is the not-found message
    alone and the world stays.  In both cases the names of [post] follow. *)
Theorem run_tasks_in_order
        (E : Env) (this : Simply) (pre post : list string) (t : string)
        (w : World E) (hit : bool) :
  (hit = true ->
   exists g,
     In g (getTasks E (world_of (forEach pre (runTask E this) w))
                    (_directory this))
     /\ path g = t) ->
  (hit = false ->
   forall g,
     In g (getTasks E (world_of (forEach pre (runTask E this) w))
                    (_directory this)) ->
     path g <> t) ->
  run E this (Some (pre ++ t :: post)) w
    = (tt,
       trace_of (forEach pre (runTask E this) w)
         ++ (if hit
             then [EvGetTasks (_directory this);
                   EvLog (Text ("Running task " +++ dquote +++ t +++ dquote
                                                +++ ":"));
                   EvScanTasksDir (_directory this) t]
                    ++ trace_of
                         (forEach
                            (scanTasksDir E
                               (world_of (forEach pre (runTask E this) w))
                               (_directory this) t)
                            (_execItem E)
                            (world_of (forEach pre (runTask E this) w)))
             else [EvGetTasks (_directory this);
                   EvLog (Text ("Task " +++ t +++ " not found."))])
         ++ trace_of
              (forEach post (runTask E this)
                 (if hit
                  then world_of
                         (forEach
                            (scanTasksDir E
                               (world_of (forEach pre (runTask E this) w))
                               (_directory this) t)
                            (_execItem E)
                            (world_of (forEach pre (runTask E this) w)))
                  else world_of (forEach pre (runTask E this) w))),
       world_of
         (forEach post (runTask E this)
            (if hit
             then world_of
                    (forEach
                       (scanTasksDir E
                          (world_of (forEach pre (runTask E this) w))
                          (_directory this) t)
                       (_execItem E)
                       (world_of (forEach pre (runTask E this) w)))
             else world_of (forEach pre (runTask E this) w))))
  /\ map Some
         (attempts
            (trace_of (runTask E this t
                         (world_of (forEach pre (runTask E this) w)))))
     = (if hit
        then map item_command
                 (filter is_runnable
                    (scanTasksDir E
                       (world_of (forEach pre (runTask E this) w))
                       (_directory this) t))
        else [])
  /\ resolutions (trace_of (run E this (Some (pre ++ t :: post)) w))
     = List.length (pre ++ t :: post).
Proof.
  intros Hhit Hmiss.
  set (w1 := world_of (forEach pre (runTask E this) w)) in *.
  assert (Hrun : run E this (Some (pre ++ t :: post)) w
                 = forEach (pre ++ t :: post) (runTask E this) w).
  { destruct pre; apply run_some. }
  assert (Hturn : runTask E this t w1
                  = if hit
                    then (tt,
                          [EvGetTasks (_directory this);
                           EvLog (Text ("Running task " +++ dquote +++ t
                                          +++ dquote +++ ":"));
                           EvScanTasksDir (_directory this) t]
                            ++ trace_of
                                 (forEach
                                    (scanTasksDir E w1 (_directory this) t)
                                    (_execItem E) w1),
                          world_of
                            (forEach (scanTasksDir E w1 (_directory this) t)
                                     (_execItem E) w1))
                    else (tt,
                          [EvGetTasks (_directory this);
                           EvLog (Text ("Task " +++ t +++ " not found."))],
                          w1)).
  { destruct hit.
    - destruct (Hhit eq_refl) as [g [Hin Hp]].
      destruct (first_with_path (getTasks E w1 (_directory this)) t)
        as [item|] eqn:Hf.
      + assert (Hpi : path item = t).
        { clear - Hf. induction (getTasks E w1 (_directory this))
            as [|x l IH]; cbn in Hf; [discriminate|].
          destruct (String.eqb_spec (path x) t) as [Heq|Hne].
          - injection Hf as <-. exact Heq.
          - apply IH, Hf. }
        rewrite (runTask_known E this t item w1 Hf), execTask_run, Hpi.
        reflexivity.
      + exfalso.
        apply (proj1 (first_with_path_none _ _) Hf g Hin Hp).
    - apply runTask_unknown, first_with_path_none, Hmiss. reflexivity. }
  rewrite Hrun. split; [|split].
  - rewrite forEach_app, forEach_cons. fold w1. rewrite Hturn.
    destruct hit; reflexivity.
  - rewrite Hturn. destruct hit; [|reflexivity].
    cbn [trace_of fst snd]. rewrite attempts_app. cbn [attempts List.app].
    apply attempts_forEach_execItem.
  - apply resolutions_runTasks.
Qed.

Lemma run_tasks_in_order_witness :
  run Demo.env Demo.simply (Some ["build"; "release"; "deploy"]) []
  = (tt,
     [EvGetTasks "/srv/app/tasks";
      EvLog (Text ("Running task " +++ dquote +++ "build" +++ dquote +++ ":"));
      EvScanTasksDir "/srv/app/tasks" "build";
      EvLog (Text "- /srv/app/tasks/build/compile.js");
      EvExec "node /srv/app/tasks/build/compile.js";
      EvGetTasks "/srv/app/tasks";
      EvLog (Text "Task release not found.");
      EvGetTasks "/srv/app/tasks";
      EvLog (Text ("Running task " +++ dquote +++ "deploy" +++ dquote +++ ":"));
      EvScanTasksDir "/srv/app/tasks" "deploy";
      EvLog (Text "- /srv/app/tasks/deploy/a.js");
      EvExec "node /srv/app/tasks/deploy/a.js";
      EvLog (Text "- /srv/app/tasks/deploy/b.js");
      EvExec "node /srv/app/tasks/deploy/b.js";
      EvLog (Caught (SystemError
                       "Command failed: node /srv/app/tasks/deploy/b.js"));
      EvLog (Text "- /srv/app/tasks/deploy/run");
      EvExec "/srv/app/tasks/deploy/run";
      EvLog (Text "- /srv/app/tasks/deploy/c.js");
      EvExec "node /srv/app/tasks/deploy/c.js"],
     ["node /srv/app/tasks/deploy/c.js"; "/srv/app/tasks/deploy/run";
      "node /srv/app/tasks/deploy/b.js"; "node /srv/app/tasks/deploy/a.js";
      "node /srv/app/tasks/build/compile.js"])
  /\ map Some
         (attempts
            (trace_of
               (runTask Demo.env Demo.simply "deploy"
                        ["node /srv/app/tasks/build/compile.js"])))
     = [Some "node /srv/app/tasks/deploy/a.js";
        Some "node /srv/app/tasks/deploy/b.js";
        Some "/srv/app/tasks/deploy/run";
        Some "node /srv/app/tasks/deploy/c.js"].
Proof.
  split.
  - refine (proj1 (run_tasks_in_order
                     Demo.env Demo.simply ["build"] ["deploy"]
                     "release" [] false _ _)).
    + discriminate.
    + intros _ g Hg. cbn in Hg.
      destruct Hg as [<-|[<-|[]]]; discriminate.
  - refine (proj1 (proj2 (run_tasks_in_order
                            Demo.env Demo.simply ["build"; "release"] []
                            "deploy" [] true _ _))).
    + intros _. exists (Demo.entry "deploy" "directory").
      split; [right; left; reflexivity|reflexivity].
    + discriminate.
Defined.

(** ** The command line of a member *)

Lemma split_blanks_plain (p : string) :
  shell_plain p = true -> split_blanks p = [p].
Proof.
  induction p as [|c p IH]; [reflexivity|].
  cbn [shell_plain split_blanks]. intro H.
  apply andb_true_iff in H. destruct H as [Hc Hp].
  unfold shell_special in Hc. apply negb_true_iff, orb_false_iff in Hc.
  destruct Hc as [Hb _]. rewrite Hb, (IH Hp). reflexivity.
Qed.

Lemma shell_words_plain (p : string) :
  shell_plain p = true -> p <> "" -> shell_words p = [p].
Proof.
  intros Hp Hne. unfold shell_words. rewrite (split_blanks_plain p Hp).
  cbn. destruct (String.eqb_spec p ""); [contradiction|reflexivity].
Qed.

Lemma shell_words_node (p : string) :
  shell_plain p = true -> p <> "" ->
  shell_words ("node " +++ p) = ["node"; p].
Proof.
  intros Hp Hne. unfold shell_words.
  change (split_blanks ("node " +++ p))
    with (match split_blanks p with
          | ws => "node" :: ws
          end).
  rewrite (split_blanks_plain p Hp).
  cbn. destruct (String.eqb_spec p ""); [contradiction|reflexivity].
Qed.

Lemma attempts_runnable (E : Env) (item : Item) (w : World E) :
  is_runnable item = true ->
  attempts (trace_of (_execItem E item w))
  = [if type item =? "script" then "node " +++ pathAbs item else pathAbs item].
Proof.
  intro Hr.
  assert (Hc : item_command item
               = Some (if type item =? "script"
                       then "node " +++ pathAbs item else pathAbs item)).
  { unfold is_runnable in Hr. unfold item_command.
    destruct (type item =? "script"); [reflexivity|].
    cbn in Hr. rewrite Hr. reflexivity. }
  rewrite (execItem_run E _ _ _ Hc). cbn.
  by_outcome.
Qed.

(** C5, as the code has it.  A member that is run is launched once, with
    the command line [node], a blank and its absolute path when its type is
    [script], and with its absolute path alone when its type is [binary];
    the path is not quoted, whatever it contains.  When the absolute path
    is not empty and has no blank and no other character special to the
    shell, the shell reads the first as the interpreter [node] with exactly
    one argument, the path, and the second as the path run as a program
    without arguments. *)
Theorem execItem_command_line (E : Env) (item : Item) (w : World E) :
  is_runnable item = true ->
  attempts (trace_of (_execItem E item w))
    = [if type item =? "script" then "node " +++ pathAbs item
       else pathAbs item]
  /\ (shell_plain (pathAbs item) = true ->
      pathAbs item <> "" ->
      shell_invocation (if type item =? "script"
                        then "node " +++ pathAbs item
                        else pathAbs item)
      = Some (if type item =? "script"
              then {| program := "node"; arguments := [pathAbs item] |}
              else {| program := pathAbs item; arguments := [] |})).
Proof.
  intro Hr. split; [apply attempts_runnable, Hr|].
  intros Hp Hne.
  unfold shell_invocation. destruct (type item =? "script").
  - rewrite (shell_words_node _ Hp Hne). reflexivity.
  - rewrite (shell_words_plain _ Hp Hne). reflexivity.
Qed.

Lemma execItem_command_line_witness :
  attempts (trace_of (_execItem Demo.env
                                (Demo.entry "deploy/a.js" "script") []))
    = ["node /srv/app/tasks/deploy/a.js"]
  /\ shell_invocation "node /srv/app/tasks/deploy/a.js"
     = Some {| program := "node";
               arguments := ["/srv/app/tasks/deploy/a.js"] |}.
Proof.
  destruct (execItem_command_line
              Demo.env (Demo.entry "deploy/a.js" "script") [] eq_refl)
    as [Hline Hshell].
  split; [exact Hline|].
  apply Hshell; [reflexivity|discriminate].
Defined.

(** C5, as the spec has it, fails for a path with a blank: the script
    [/srv/my app/tasks/build/a.js] is launched with the command line
    [node /srv/my app/tasks/build/a.js], which the shell reads as [node]
    with two arguments, neither of them the path. *)
Lemma execItem_path_with_blank :
  type {| path := "build/a.js"; pathAbs := "/srv/my app/tasks/build/a.js";
          type := "script" |} = "script"
  /\ attempts (trace_of (_execItem Demo.env
                 {| path := "build/a.js";
                    pathAbs := "/srv/my app/tasks/build/a.js";
                    type := "script" |} []))
     = ["node /srv/my app/tasks/build/a.js"]
  /\ shell_invocation "node /srv/my app/tasks/build/a.js"
     = Some {| program := "node";
               arguments := ["/srv/my"; "app/tasks/build/a.js"] |}
  /\ shell_invocation "node /srv/my app/tasks/build/a.js"
     <> Some {| program := "node";
                arguments := ["/srv/my app/tasks/build/a.js"] |}.
Proof.
  repeat split; try reflexivity. discriminate.
Qed.

(** ** Objects as maps *)

Lemma lookup_app (k : string) (l1 l2 : Props) :
  lookup k (l1 ++ l2)
  = match lookup k l1 with Some v => Some v | None => lookup k l2 end.
Proof.
  induction l1 as [|[a x] l1 IH]; [reflexivity|].
  cbn. destruct (a =? k); [reflexivity|exact IH].
Qed.

Lemma lookup_none (k : string) (l : Props) :
  lookup k l = None <-> ~ In k (map fst l).
Proof.
  induction l as [|[a x] l IH]; cbn.
  - split; [intros _ []|reflexivity].
  - destruct (String.eqb_spec a k) as [Heq|Hne].
    + split; [discriminate|]. intro H. exfalso. apply H. auto.
    + rewrite IH. split.
      * intros H [Ha|Hin]; [exact (Hne Ha)|exact (H Hin)].
      * intros H Hin. apply H. auto.
Qed.

Lemma lookup_rev_none (k : string) (l : Props) :
  lookup k l = None -> lookup k (List.rev l) = None.
Proof.
  rewrite !lookup_none, map_rev. intros H Hin. apply H.
  apply in_rev. exact Hin.
Qed.

Lemma lookup_put_own (k name : string) (v : Value) (d : Props) :
  lookup k (put_own d name v)
  = if name =? k then Some v else lookup k d.
Proof.
  induction d as [|[a x] d IH]; cbn.
  - reflexivity.
  - destruct (String.eqb_spec a name) as [Han|Han]; cbn.
    + subst a. destruct (name =? k); reflexivity.
    + rewrite IH. destruct (String.eqb_spec a k) as [Hak|Hak];
        [|reflexivity].
      subst a. destruct (String.eqb_spec name k); [congruence|reflexivity].
Qed.

(** A write either replaces the prototype and leaves the own properties,
    or writes an own property and leaves the prototype. *)
Lemma js_set_cases (o : Obj) (name : string) (v : Value) :
  (name = "__proto__" /\ own (js_set o name v) = own o)
  \/ js_set o name v = {| own := put_own (own o) name v; proto := proto o |}.
Proof.
  unfold js_set.
  destruct (String.eqb_spec name "__proto__") as [Hn|Hn]; cbn [andb];
    [|right; reflexivity].
  destruct (negb (has_own name (own o)) && setter_reached (proto o));
    [|right; reflexivity].
  left. split; [exact Hn|]. cbn. destruct v; reflexivity.
Qed.

Lemma lookup_js_set (k name : string) (v : Value) (o : Obj) :
  k <> "__proto__" ->
  lookup k (own (js_set o name v))
  = if name =? k then Some v else lookup k (own o).
Proof.
  intro Hk. destruct (js_set_cases o name v) as [[Hn Hown]|Heq].
  - rewrite Hown. destruct (String.eqb_spec name k); [congruence|reflexivity].
  - rewrite Heq. apply lookup_put_own.
Qed.

Lemma lookup_apply_writes (k : string) (writes : Props) (o : Obj) :
  k <> "__proto__" ->
  lookup k (own (apply_writes writes o))
  = match lookup k (List.rev writes) with
    | Some v => Some v
    | None => lookup k (own o)
    end.
Proof.
  intro Hk. revert o. induction writes as [|[name v] writes IH]; intro o.
  - reflexivity.
  - cbn [apply_writes fold_left List.rev fst snd].
    change (fold_left _ writes ?x) with (apply_writes writes x).
    rewrite IH, lookup_app, (lookup_js_set _ _ _ _ Hk). cbn.
    destruct (lookup k (List.rev writes)); [reflexivity|].
    destruct (name =? k); reflexivity.
Qed.

Lemma apply_writes_app (w1 w2 : Props) (o : Obj) :
  apply_writes (w1 ++ w2) o = apply_writes w2 (apply_writes w1 o).
Proof. unfold apply_writes. apply fold_left_app. Qed.

Lemma copy_props_writes (src : Value) (keys : list string) (o : Obj) :
  copy_props src keys o
  = apply_writes (map (fun key => (key, js_get src key)) keys) o.
Proof.
  revert o. induction keys as [|key keys IH]; intro o; [reflexivity|].
  cbn. apply IH.
Qed.

Lemma Object_keys_truthy (v : Value) :
  truthy v = true -> Object_keys v = inr (own_keys v).
Proof. destruct v; cbn; congruence. Qed.

(** ** Aggregating the dependencies *)

Lemma merge_field_writes (config : Value) (field : string) (o : Obj) :
  merge_field config field o
  = match getProp config field with
    | inl error => inl error
    | inr _ => inr (apply_writes (field_writes config field) o)
    end.
Proof.
  unfold merge_field, field_writes.
  destruct (getProp config field) as [error|src]; [reflexivity|].
  destruct (truthy src) eqn:Ht; [|reflexivity].
  rewrite (Object_keys_truthy src Ht), copy_props_writes. reflexivity.
Qed.

Lemma getProp_throws (config : Value) (f1 f2 : string) (error : JsError) :
  getProp config f1 = inl error -> exists error', getProp config f2 = inl error'.
Proof. destruct config; cbn; try discriminate; eauto. Qed.

Lemma field_writes_throws (config : Value) (field : string) (error : JsError) :
  getProp config field = inl error -> field_writes config field = [].
Proof. intro H. unfold field_writes. rewrite H. reflexivity. Qed.

Section Aggregation.

Context (E : Env).

Lemma collect_entry_world (item : Item) (o : Obj) (w : World E) :
  world_of (collect_entry E item o w) = w.
Proof.
  unfold collect_entry, bind, read_file, console_log, ret.
  destruct (readFileSync E w (pathAbs item)) as [error|data];
    [reflexivity|].
  destruct (JSON_parse E data) as [error|config]; [reflexivity|].
  destruct (merge_field config "dependencies" o) as [error|d1];
    [reflexivity|].
  destruct (merge_field config "devDependencies" d1); reflexivity.
Qed.

Lemma collect_entry_value (item : Item) (o : Obj) (w : World E) :
  value_of (collect_entry E item o w) = apply_writes (entry_writes E w item) o.
Proof.
  unfold collect_entry, entry_writes, bind, read_file, console_log, ret.
  destruct (readFileSync E w (pathAbs item)) as [error|data];
    [reflexivity|].
  destruct (JSON_parse E data) as [error|config]; [reflexivity|].
  rewrite apply_writes_app, (merge_field_writes config "dependencies" o).
  destruct (getProp config "dependencies") as [error|src] eqn:H1.
  - destruct (getProp_throws config _ "devDependencies" _ H1) as [e2 H2].
    rewrite (field_writes_throws _ _ _ H1), (field_writes_throws _ _ _ H2).
    reflexivity.
  - rewrite merge_field_writes.
    destruct (getProp config "devDependencies") as [error|src2] eqn:H2.
    + rewrite (field_writes_throws _ _ _ H2). reflexivity.
    + reflexivity.
Qed.

Lemma collect_entry_fails (item : Item) (error : JsError) (o : Obj)
      (w : World E) :
  entry_fails E w item error ->
  collect_entry E item o w
  = (o, [EvReadFile (pathAbs item); EvLog (Caught error)], w).
Proof.
  unfold collect_entry, bind, read_file, console_log, ret.
  intros [Hr|[data [Hr Hp]]]; rewrite Hr; [reflexivity|].
  rewrite Hp. reflexivity.
Qed.

Lemma entry_fails_writes (item : Item) (error : JsError) (w : World E) :
  entry_fails E w item error -> entry_writes E w item = [].
Proof.
  unfold entry_writes.
  intros [Hr|[data [Hr Hp]]]; rewrite Hr; [reflexivity|].
  rewrite Hp. reflexivity.
Qed.

Lemma collect_world (items : list Item) (o : Obj) (w : World E) :
  world_of (forAcc items (collect_entry E) o w) = w.
Proof.
  revert o. induction items as [|item items IH]; intro o; [reflexivity|].
  rewrite forAcc_cons. cbn [world_of snd].
  rewrite collect_entry_world. apply IH.
Qed.

Lemma collect_value (items : list Item) (o : Obj) (w : World E) :
  value_of (forAcc items (collect_entry E) o w)
  = apply_writes (flat_map (entry_writes E w) items) o.
Proof.
  revert o. induction items as [|item items IH]; intro o; [reflexivity|].
  rewrite forAcc_cons. cbn [value_of fst flat_map].
  rewrite collect_entry_world, collect_entry_value, IH, apply_writes_app.
  reflexivity.
Qed.

Lemma getDependencies_run (this : Simply) (w : World E) :
  _getDependencies E this w
  = (value_of (forAcc (getConfig E w (_directory this)) (collect_entry E)
                      empty_object w),
     EvGetConfig (_directory this)
       :: trace_of (forAcc (getConfig E w (_directory this))
                           (collect_entry E) empty_object w),
     w).
Proof.
  unfold _getDependencies. rewrite bind_run.
  unfold scan_config. cbn [value_of trace_of world_of fst snd List.app].
  rewrite collect_world. reflexivity.
Qed.

End Aggregation.

Lemma lookup_rev_none_iff (k : string) (l : Props) :
  lookup k (List.rev l) = None <-> lookup k l = None.
Proof.
  rewrite !lookup_none, map_rev. split; intros H Hin; apply H.
  - apply -> in_rev. exact Hin.
  - apply in_rev. exact Hin.
Qed.




Lemma getDependencies_lookup (E : Env) (this : Simply) (w : World E)
      (key : string) :
  key <> "__proto__" ->
  lookup key (own (value_of (_getDependencies E this w)))
  = lookup key (List.rev (flat_map (entry_writes E w)
                                   (getConfig E w (_directory this)))).
Proof.
  intro Hk. rewrite getDependencies_run. cbn [value_of fst].
  rewrite collect_value, (lookup_apply_writes _ _ _ Hk).
  destruct (lookup key (List.rev _)); reflexivity.
Qed.




(** C7.  A config entry whose file cannot be read or parsed is reported
    and skipped.  The error is caught and printed after the read, and the
    entries after it are read and merged as usual.  The aggregate returned
    is the empty object with the assignments of the other entries made to
    it in scan order, the same as if the failing entry had not been
    scanned; for every key but [__proto__] it holds the value of the last
    assignment among those. *)
Theorem getDependencies_skips_failing_entry
        (E : Env) (this : Simply) (w : World E) (pre post : list Item)
        (e : Item) (error : JsError) :
  getConfig E w (_directory this) = pre ++ e :: post ->
  entry_fails E w e error ->
  value_of (_getDependencies E this w)
    = apply_writes (flat_map (entry_writes E w) (pre ++ post)) empty_object
  /\ value_of (_getDependencies E this w)
     = value_of (forAcc (pre ++ post) (collect_entry E) empty_object w)
  /\ (forall key,
         key <> "__proto__" ->
         lookup key (own (value_of (_getDependencies E this w)))
         = lookup key (List.rev (flat_map (entry_writes E w) (pre ++ post))))
  /\ trace_of (_getDependencies E this w)
     = EvGetConfig (_directory this)
         :: trace_of (forAcc pre (collect_entry E) empty_object w)
         ++ [EvReadFile (pathAbs e); EvLog (Caught error)]
         ++ trace_of (forAcc post (collect_entry E)
                             (value_of (forAcc pre (collect_entry E)
                                               empty_object w))
                             w).
Proof.
  intros Hscan Hfail.
  assert (Hval : value_of (_getDependencies E this w)
                 = apply_writes (flat_map (entry_writes E w) (pre ++ post))
                                empty_object).
  { rewrite getDependencies_run, Hscan. cbn [value_of fst].
    rewrite collect_value, !flat_map_app. cbn [flat_map].
    rewrite (entry_fails_writes E e error w Hfail). reflexivity. }
  split; [exact Hval|split; [|split]].
  - rewrite Hval, collect_value. reflexivity.
  - intros key Hkey. rewrite Hval, (lookup_apply_writes _ _ _ Hkey).
    destruct (lookup key (List.rev _)); reflexivity.
  - rewrite getDependencies_run, Hscan. cbn [value_of trace_of fst snd].
    rewrite !forAcc_app, forAcc_cons.
    cbn [value_of trace_of world_of fst snd].
    rewrite !collect_world.
    rewrite (collect_entry_fails E e error _ w Hfail).
    cbn [value_of trace_of world_of fst snd]. reflexivity.
Qed.

Lemma getDependencies_skips_failing_entry_witness :
  value_of (_getDependencies Demo.env Demo.simply [])
    = {| own := [("x", JString "2.0.0"); ("y", JString "0.2.0")];
         proto := ObjectPrototype |}
  /\ trace_of (_getDependencies Demo.env Demo.simply [])
     = [EvGetConfig "/srv/app/tasks";
        EvReadFile "/srv/app/tasks/groupA/config.json";
        EvReadFile "/srv/app/tasks/broken/config.json";
        EvLog (Caught (SyntaxError
                         "Unexpected token o in JSON at position 1"));
        EvReadFile "/srv/app/tasks/gone/config.json";
        EvLog (Caught (SystemError
                         ("ENOENT: no such file or directory, open '"
                            +++ "/srv/app/tasks/gone/config.json" +++ "'")));
        EvReadFile "/srv/app/tasks/groupB/config.json"].
Proof.
  destruct (getDependencies_skips_failing_entry
              Demo.env Demo.simply []
              [Demo.entry "groupA/config.json" "config"]
              [Demo.entry "gone/config.json" "config";
               Demo.entry "groupB/config.json" "config"]
              (Demo.entry "broken/config.json" "config")
              (SyntaxError "Unexpected token o in JSON at position 1"))
    as [Hvalue [_ [_ Htrace]]].
  - reflexivity.
  - right. exists "{oops". split; reflexivity.
  - split; [exact Hvalue|exact Htrace].
Defined.




(** ** The keys of the aggregate *)

Lemma insert_by_index_perm (p : string * Value) (l : Props) :
  Permutation (insert_by_index p l) (p :: l).
Proof.
  induction l as [|q l IH]; cbn; [reflexivity|].
  destruct (index_of p <? index_of q)%N; [reflexivity|].
  rewrite IH. apply perm_swap.
Qed.

Lemma sort_by_index_perm (l : Props) : Permutation (sort_by_index l) l.
Proof.
  induction l as [|p l IH]; cbn; [reflexivity|].
  rewrite insert_by_index_perm, IH. reflexivity.
Qed.

Lemma filter_split_perm {A : Type} (f : A -> bool) (l : list A) :
  Permutation (filter f l ++ filter (fun a => negb (f a)) l) l.
Proof.
  induction l as [|a l IH]; cbn; [reflexivity|].
  destruct (f a); cbn.
  - rewrite IH. reflexivity.
  - rewrite <- Permutation_middle, IH. reflexivity.
Qed.

Lemma ordered_props_perm (props : Props) :
  Permutation (ordered_props props) props.
Proof.
  unfold ordered_props. rewrite sort_by_index_perm. apply filter_split_perm.
Qed.

Lemma own_keys_object (props : Props) :
  Permutation (own_keys (JObject props)) (map fst props).
Proof. unfold own_keys. cbn. apply Permutation_map, ordered_props_perm. Qed.

Lemma put_own_keys (d : Props) (name : string) (v : Value) :
  map fst (put_own d name v)
  = if existsb (String.eqb name) (map fst d) then map fst d
    else map fst d ++ [name].
Proof.
  induction d as [|[a x] d IH]; cbn; [reflexivity|].
  rewrite (String.eqb_sym name a).
  destruct (a =? name); cbn; [reflexivity|].
  rewrite IH. destruct (existsb _ _); reflexivity.
Qed.

Lemma put_own_nodup (d : Props) (name : string) (v : Value) :
  NoDup (map fst d) -> NoDup (map fst (put_own d name v)).
Proof.
  intro H. rewrite put_own_keys.
  destruct (existsb (String.eqb name) (map fst d)) eqn:Hex; [exact H|].
  apply NoDup_app; [exact H|repeat constructor; intros []|].
  intros a Ha [<-|[]].
  assert (Ht : existsb (String.eqb name) (map fst d) = true).
  { apply existsb_exists. exists name. split; [exact Ha|apply String.eqb_refl]. }
  congruence.
Qed.

Lemma js_set_nodup (o : Obj) (name : string) (v : Value) :
  NoDup (map fst (own o)) -> NoDup (map fst (own (js_set o name v))).
Proof.
  intro H. destruct (js_set_cases o name v) as [[_ Hown]|Heq].
  - rewrite Hown. exact H.
  - rewrite Heq. apply put_own_nodup, H.
Qed.

Lemma apply_writes_nodup (writes : Props) (o : Obj) :
  NoDup (map fst (own o)) -> NoDup (map fst (own (apply_writes writes o))).
Proof.
  revert o. induction writes as [|[name v] writes IH]; intros o H;
    [exact H|].
  cbn. apply IH, js_set_nodup, H.
Qed.

(** ** Installing the dependencies *)

(** The launch of one key: none when the version has no text. *)
Lemma install_command_cases (deps : Props) (suffix key : string) :
  install_command deps suffix key
  = match ToString (js_get (JObject deps) key) with
    | inl error => inl error
    | inr version => inr ("npm i " +++ key +++ "@" +++ version +++ suffix)
    end.
Proof. reflexivity. Qed.

Section Installation.

Context (E : Env).

Lemma attempts_collect_entry (item : Item) (o : Obj) (w : World E) :
  attempts (trace_of (collect_entry E item o w)) = [].
Proof.
  unfold collect_entry, bind, read_file, console_log, ret.
  destruct (readFileSync E w (pathAbs item)) as [error|data];
    [reflexivity|].
  destruct (JSON_parse E data) as [error|config]; [reflexivity|].
  destruct (merge_field config "dependencies" o) as [error|d1];
    [reflexivity|].
  destruct (merge_field config "devDependencies" d1); reflexivity.
Qed.

Lemma attempts_collect (items : list Item) (o : Obj) (w : World E) :
  attempts (trace_of (forAcc items (collect_entry E) o w)) = [].
Proof.
  revert o w. induction items as [|item items IH]; intros o w;
    [reflexivity|].
  rewrite forAcc_cons. cbn [trace_of fst snd].
  rewrite attempts_app, attempts_collect_entry, IH. reflexivity.
Qed.

Lemma attempts_getDependencies (this : Simply) (w : World E) :
  attempts (trace_of (_getDependencies E this w)) = [].
Proof.
  rewrite getDependencies_run. cbn [trace_of fst snd attempts].
  apply attempts_collect.
Qed.

Lemma getDependencies_nodup (this : Simply) (w : World E) :
  NoDup (map fst (own (value_of (_getDependencies E this w)))).
Proof.
  rewrite getDependencies_run. cbn [value_of fst].
  rewrite collect_value. apply apply_writes_nodup. constructor.
Qed.

Lemma install_entry_run (deps : Props) (suffix key command : string)
      (w : World E) :
  install_command deps suffix key = inr command ->
  install_entry E deps suffix key w
  = (tt,
     [EvLog (Text command); EvExec command]
       ++ match fst (execSync E w command) with
          | inl error => [EvLog (Caught error)]
          | inr output => if output =? "" then [] else [EvLog (Text output)]
          end,
     snd (execSync E w command)).
Proof.
  intro Hc. unfold install_entry. rewrite Hc.
  unfold bind, console_log, exec.
  destruct (execSync E w command) as [[error|output] w1]; cbn.
  - reflexivity.
  - destruct (output =? ""); reflexivity.
Qed.

Lemma install_entry_throws (deps : Props) (suffix key : string)
      (error : JsError) (w : World E) :
  install_command deps suffix key = inl error ->
  install_entry E deps suffix key w = (tt, [EvLog (Caught error)], w).
Proof. intro Hc. unfold install_entry. rewrite Hc. reflexivity. Qed.

Lemma attempts_install_entries (deps : Props) (suffix : string)
      (keys : list string) (w : World E) :
  attempts (trace_of (forEach keys (install_entry E deps suffix) w))
  = flat_map (fun key =>
                match install_command deps suffix key with
                | inr command => [command]
                | inl _ => []
                end)
             keys.
Proof.
  revert w. induction keys as [|key keys IH]; intro w; [reflexivity|].
  rewrite forEach_cons. cbn [trace_of fst snd flat_map].
  rewrite attempts_app, IH.
  destruct (install_command deps suffix key) as [error|command] eqn:Hc.
  - rewrite (install_entry_throws _ _ _ _ _ Hc). reflexivity.
  - rewrite (install_entry_run _ _ _ _ _ Hc). cbn. by_outcome.
Qed.

Lemma install_run (this : Simply) (save : bool) (w : World E) :
  install E this save w
  = (tt,
     EvLog (Text "Installing task dependencies...")
       :: trace_of (_getDependencies E this w)
       ++ trace_of
            (forEach
               (own_keys
                  (JObject (own (value_of (_getDependencies E this w)))))
               (install_entry E (own (value_of (_getDependencies E this w)))
                              (if save then " -D" else ""))
               w),
     world_of
       (forEach
          (own_keys (JObject (own (value_of (_getDependencies E this w)))))
          (install_entry E (own (value_of (_getDependencies E this w)))
                         (if save then " -D" else ""))
          w)).
Proof.
  assert (Hw : world_of (_getDependencies E this w) = w)
    by (rewrite getDependencies_run; reflexivity).
  unfold install. rewrite bind_run.
  change (console_log (Text "Installing task dependencies...") w)
    with (tt, [EvLog (Text "Installing task dependencies...")], w).
  cbn [value_of trace_of world_of fst snd List.app].
  rewrite bind_run, Hw.
  destruct (forEach _ _ w) as [[[] t] w1]. reflexivity.
Qed.

End Installation.

Lemma own_keys_bound (props : Props) (name : string) :
  In name (own_keys (JObject props)) <-> lookup name props <> None.
Proof.
  rewrite lookup_none. split.
  - intros Hin Hn. apply Hn.
    apply (Permutation_in _ (own_keys_object props)). exact Hin.
  - intro Hn. apply (Permutation_in _ (Permutation_sym (own_keys_object props))).
    destruct (in_dec string_dec name (map fst props)) as [Hin|Hout];
      [exact Hin|contradiction].
Qed.

(** C8, as the code has it.  [install] goes through the own keys of the
    aggregate, which are pairwise different and are exactly the names it
    binds.  For every key whose version has a text it launches one
    command, [npm i <name>@<version>], followed by [ -D] when [save] is
    true; a key whose version cannot be converted to text is reported and
    passed without a launch.  When the command of a key fails, the error
    is caught and printed and the keys after it are installed from the
    world the failure leaves. *)
Theorem install_one_command_per_dependency
        (E : Env) (this : Simply) (save : bool) (w : World E) :
  let deps := own (value_of (_getDependencies E this w)) in
  let suffix := if save then " -D" else "" in
  attempts (trace_of (install E this save w))
    = flat_map
        (fun name =>
           match ToString (js_get (JObject deps) name) with
           | inr version => ["npm i " +++ name +++ "@" +++ version +++ suffix]
           | inl _ => []
           end)
        (own_keys (JObject deps))
  /\ NoDup (own_keys (JObject deps))
  /\ (forall name,
         In name (own_keys (JObject deps)) <-> lookup name deps <> None)
  /\ (forall pre key post version error w2,
         own_keys (JObject deps) = pre ++ key :: post ->
         ToString (js_get (JObject deps) key) = inr version ->
         execSync E
           (world_of (forEach pre (install_entry E deps suffix) w))
           ("npm i " +++ key +++ "@" +++ version +++ suffix)
           = (inl error, w2) ->
         trace_of (install E this save w)
         = EvLog (Text "Installing task dependencies...")
             :: trace_of (_getDependencies E this w)
             ++ trace_of (forEach pre (install_entry E deps suffix) w)
             ++ [EvLog (Text ("npm i " +++ key +++ "@" +++ version
                                       +++ suffix));
                 EvExec ("npm i " +++ key +++ "@" +++ version +++ suffix);
                 EvLog (Caught error)]
             ++ trace_of (forEach post (install_entry E deps suffix) w2))
  /\ (forall pre key post error,
         own_keys (JObject deps) = pre ++ key :: post ->
         ToString (js_get (JObject deps) key) = inl error ->
         trace_of (install E this save w)
         = EvLog (Text "Installing task dependencies...")
             :: trace_of (_getDependencies E this w)
             ++ trace_of (forEach pre (install_entry E deps suffix) w)
             ++ [EvLog (Caught error)]
             ++ trace_of (forEach post (install_entry E deps suffix)
                            (world_of (forEach pre
                                         (install_entry E deps suffix) w)))).
Proof.
  intros deps suffix.
  assert (Hrun := install_run E this save w).
  fold deps in Hrun. fold suffix in Hrun.
  split; [|split; [|split; [|split]]].
  - rewrite Hrun. cbn [trace_of fst snd attempts].
    rewrite attempts_app, attempts_getDependencies. cbn [List.app].
    rewrite attempts_install_entries. apply flat_map_ext. intro name.
    rewrite install_command_cases.
    destruct (ToString (js_get (JObject deps) name)); reflexivity.
  - apply (Permutation_NoDup (Permutation_sym (own_keys_object deps))).
    apply getDependencies_nodup.
  - apply own_keys_bound.
  - intros pre key post version error w2 Hkeys Hv Hx.
    rewrite Hrun. cbn [trace_of fst snd].
    rewrite Hkeys, forEach_app, forEach_cons.
    cbn [trace_of world_of fst snd].
    assert (Hc : install_command deps suffix key
                 = inr ("npm i " +++ key +++ "@" +++ version +++ suffix)).
    { rewrite install_command_cases, Hv. reflexivity. }
    rewrite (install_entry_run E _ _ _ _ _ Hc), Hx. reflexivity.
  - intros pre key post error Hkeys Hv.
    rewrite Hrun. cbn [trace_of fst snd].
    rewrite Hkeys, forEach_app, forEach_cons.
    cbn [trace_of world_of fst snd].
    assert (Hc : install_command deps suffix key = inl error).
    { rewrite install_command_cases, Hv. reflexivity. }
    rewrite (install_entry_throws E _ _ _ _ _ Hc). reflexivity.
Qed.

Lemma install_one_command_per_dependency_witness :
  trace_of (install Demo.env Demo.simply false [])
  = [EvLog (Text "Installing task dependencies...");
     EvGetConfig "/srv/app/tasks";
     EvReadFile "/srv/app/tasks/groupA/config.json";
     EvReadFile "/srv/app/tasks/broken/config.json";
     EvLog (Caught (SyntaxError "Unexpected token o in JSON at position 1"));
     EvReadFile "/srv/app/tasks/gone/config.json";
     EvLog (Caught (SystemError
                      ("ENOENT: no such file or directory, open '"
                         +++ "/srv/app/tasks/gone/config.json" +++ "'")));
     EvReadFile "/srv/app/tasks/groupB/config.json";
     EvLog (Text "npm i x@2.0.0");
     EvExec "npm i x@2.0.0";
     EvLog (Caught (SystemError "Command failed: npm i x@2.0.0"));
     EvLog (Text "npm i y@0.2.0");
     EvExec "npm i y@0.2.0"].
Proof.
  destruct (install_one_command_per_dependency Demo.env Demo.simply false [])
    as [_ [_ [_ [Hfail _]]]].
  apply (Hfail [] "x" ["y"] "2.0.0"
               (SystemError "Command failed: npm i x@2.0.0")
               ["npm i x@2.0.0"]);
    reflexivity.
Defined.

(** C8, as the spec has it, fails for a version without a text.  The
    aggregate of the third installation binds [x] to an object that has a
    [toString] property and [y] to [2.0.0]; for [x] the conversion throws
    inside the [try], the error is printed and nothing is launched, and
    the only command of the installation is that of [y]. *)
Lemma install_version_without_text :
  own_keys (JObject (own (value_of (_getDependencies Quirk.env Quirk.simply []))))
  = ["x"; "y"]
  /\ trace_of (install Quirk.env Quirk.simply false [])
     = [EvLog (Text "Installing task dependencies...");
        EvGetConfig "/srv/app/tasks";
        EvReadFile "/srv/app/tasks/first/config.json";
        EvReadFile "/srv/app/tasks/second/config.json";
        EvLog (Caught (TypeError "Cannot convert object to primitive value"));
        EvLog (Text "npm i y@2.0.0");
        EvExec "npm i y@2.0.0"]
  /\ attempts (trace_of (install Quirk.env Quirk.simply false []))
     = ["npm i y@2.0.0"]
  /\ List.length (attempts (trace_of (install Quirk.env Quirk.simply false [])))
     <> List.length
          (own_keys
             (JObject (own (value_of
                              (_getDependencies Quirk.env Quirk.simply []))))).
Proof. repeat split; try reflexivity. discriminate. Qed.

(** ** The defaults of the constructor *)

Lemma extension_empty_binary (name : string) :
  extension name = "" -> classify scanner_defaults name = KBinary.
Proof. intro H. unfold classify. rewrite H. reflexivity. Qed.

(** C9, as the code has it.  A runner built without extension settings
    writes the binary extensions [""], [sh], [bat], [exe], the script
    extension [js] and the config extension [json] as defaults.  With
    these sets the scanner classifies a file whose extension is empty,
    such as [run], as a binary.  An entry of the type of a binary is
    launched with its absolute path alone as command line, unquoted and
    without interpreter; when that path is not empty and has no blank and
    no other character special to the shell, the shell reads it as the
    path run as a program without arguments. *)
Theorem constructor_default_extensions (E : Env) (config : option Config) :
  (forall c, config = Some c ->
             extBinary c = None /\ extScript c = None /\ extConfig c = None) ->
  extBinary (snd (constructor E config)) = Some [""; "sh"; "bat"; "exe"]
  /\ extScript (snd (constructor E config)) = Some ["js"]
  /\ extConfig (snd (constructor E config)) = Some ["json"]
  /\ classify scanner_defaults "run" = KBinary
  /\ (forall name,
         extension name = "" -> classify scanner_defaults name = KBinary)
  /\ (forall rel abs w,
         attempts
           (trace_of
              (_execItem E
                 {| path := rel; pathAbs := abs; type := kind_type KBinary |}
                 w))
         = [abs]
         /\ (shell_plain abs = true ->
             abs <> "" ->
             shell_invocation abs
             = Some {| program := abs; arguments := [] |})).
Proof.
  intro H.
  assert (Hb : extBinary (snd (constructor E config))
               = Some [""; "sh"; "bat"; "exe"]
               /\ extScript (snd (constructor E config)) = Some ["js"]
               /\ extConfig (snd (constructor E config)) = Some ["json"]).
  { destruct config as [c|]; cbn.
    - destruct (H c eq_refl) as [-> [-> ->]]. repeat split.
    - repeat split. }
  destruct Hb as [Hb [Hs Hc]].
  split; [exact Hb|split; [exact Hs|split; [exact Hc|]]].
  split; [reflexivity|split; [exact extension_empty_binary|]].
  intros rel abs w. split.
  - apply (attempts_runnable E). reflexivity.
  - intros Hp Hne. unfold shell_invocation.
    rewrite (shell_words_plain _ Hp Hne). reflexivity.
Qed.

Lemma constructor_default_extensions_witness :
  extBinary (snd (constructor Demo.env
                    (Some {| rootDir := Some "/srv/app"; tasksDir := None;
                             extBinary := None; extScript := None;
                             extConfig := None |})))
    = Some [""; "sh"; "bat"; "exe"]
  /\ attempts
       (trace_of
          (_execItem Demo.env
             {| path := "deploy/run"; pathAbs := "/srv/app/tasks/deploy/run";
                type := kind_type KBinary |}
             []))
     = ["/srv/app/tasks/deploy/run"]
  /\ shell_invocation "/srv/app/tasks/deploy/run"
     = Some {| program := "/srv/app/tasks/deploy/run"; arguments := [] |}.
Proof.
  destruct (constructor_default_extensions
              Demo.env
              (Some {| rootDir := Some "/srv/app"; tasksDir := None;
                       extBinary := None; extScript := None;
                       extConfig := None |}))
    as [Hbinary [_ [_ [_ [_ Hlaunch]]]]].
  - intros c Hc. injection Hc as <-. repeat split.
  - destruct (Hlaunch "deploy/run" "/srv/app/tasks/deploy/run" [])
      as [Hline Hshell].
    split; [exact Hbinary|split; [exact Hline|]].
    apply Hshell; [reflexivity|discriminate].
Defined.

(** C9, as the spec has it, fails under a directory with a blank in its
    name.  The file [run] is a binary by its empty extension; under
    [/srv/my app] it is launched with the command line
    [/srv/my app/tasks/deploy/run], which the shell reads as the program
    [/srv/my] with one argument, not as the file run directly. *)
Lemma binary_path_with_blank :
  classify scanner_defaults "run" = KBinary
  /\ attempts
       (trace_of
          (_execItem Demo.env
             {| path := "deploy/run";
                pathAbs := "/srv/my app/tasks/deploy/run";
                type := kind_type KBinary |}
             []))
     = ["/srv/my app/tasks/deploy/run"]
  /\ shell_invocation "/srv/my app/tasks/deploy/run"
     = Some {| program := "/srv/my"; arguments := ["app/tasks/deploy/run"] |}
  /\ shell_invocation "/srv/my app/tasks/deploy/run"
     <> Some {| program := "/srv/my app/tasks/deploy/run";
                arguments := [] |}.
Proof. repeat split; try reflexivity. discriminate. Qed.

(** * Further properties of the class *)

(** ** Resolving and listing *)

Lemma first_with_path_split (tasks : list Item) (task : string) (g : Item) :
  first_with_path tasks task = Some g <->
  exists pre post,
    tasks = pre ++ g :: post
    /\ path g = task
    /\ (forall p, In p pre -> path p <> task).
Proof.
  split.
  - induction tasks as [|t tasks IH]; cbn; [discriminate|].
    destruct (String.eqb_spec (path t) task) as [Heq|Hne].
    + intros [= <-]. exists [], tasks. repeat split; auto; intros p [].
    + intro H. destruct (IH H) as [pre [post [-> [Hp Hpre]]]].
      exists (t :: pre), post. repeat split; auto.
      intros p [<-|Hin]; auto.
  - intros [pre [post [-> [Hp Hpre]]]].
    induction pre as [|t pre IH]; cbn.
    + rewrite <- Hp, String.eqb_refl. reflexivity.
    + destruct (String.eqb_spec (path t) task) as [Heq|Hne].
      * exfalso. apply (Hpre t); auto. left. reflexivity.
      * apply IH. intros p Hin. apply Hpre. right. exact Hin.
Qed.

Lemma first_with_path_found (tasks : list Item) (task : string) (g : Item) :
  In g tasks -> path g = task ->
  exists item,
    first_with_path tasks task = Some item /\ path item = task /\ In item tasks.
Proof.
  intros Hin Hp.
  destruct (first_with_path tasks task) as [item|] eqn:Hf.
  - exists item. split; [reflexivity|].
    apply first_with_path_split in Hf.
    destruct Hf as [pre [post [-> [Hpi _]]]]. split; [exact Hpi|].
    apply in_or_app. right. left. reflexivity.
  - exfalso. apply (proj1 (first_with_path_none tasks task) Hf g Hin Hp).
Qed.

(** [run] without tasks.  When the list of names is absent or empty,
    [run] prints that no tasks were specified and does nothing else: no
    scan, no launch, the world untouched. *)
Theorem run_without_tasks (E : Env) (this : Simply) (w : World E) :
  run E this None w = (tt, [EvLog (Text "No tasks specified.")], w)
  /\ run E this (Some []) w = (tt, [EvLog (Text "No tasks specified.")], w).
Proof. split; reflexivity. Qed.

(** X1.  [_getTask] returns the first entry of the catalogue whose [path]
    is the name, also when later entries have the same [path]; it scans
    the catalogue once and changes nothing. *)
Theorem getTask_first_match
        (E : Env) (this : Simply) (task : string) (w : World E)
        (pre post : list Item) (g : Item) :
  getTasks E w (_directory this) = pre ++ g :: post ->
  path g = task ->
  (forall p, In p pre -> path p <> task) ->
  _getTask E this task w = (Some g, [EvGetTasks (_directory this)], w).
Proof.
  intros Hscan Hp Hpre. unfold _getTask, bind, scan_tasks, ret. cbn.
  assert (Hf : first_with_path (getTasks E w (_directory this)) task = Some g).
  { apply first_with_path_split. exists pre, post. auto. }
  rewrite Hf. reflexivity.
Qed.

Lemma getTask_first_match_witness :
  _getTask Demo.env Demo.simply "deploy" []
  = (Some (Demo.entry "deploy" "directory"), [EvGetTasks "/srv/app/tasks"], []).
Proof.
  apply (getTask_first_match
           Demo.env Demo.simply "deploy" []
           [Demo.entry "build" "directory"] []
           (Demo.entry "deploy" "directory")).
  - reflexivity.
  - reflexivity.
  - intros p [<-|[]]. discriminate.
Defined.

(** X2.  [runTask] on a name of the catalogue.  When some entry of the
    catalogue has the name as its [path], [runTask] announces the task,
    scans the members of the group of that name and launches exactly the
    scripts and binaries among them, in scan order. *)
Theorem runTask_runs_named_group
        (E : Env) (this : Simply) (task : string) (w : World E) (g : Item) :
  In g (getTasks E w (_directory this)) ->
  path g = task ->
  trace_of (runTask E this task w)
    = [EvGetTasks (_directory this);
       EvLog (Text ("Running task " +++ dquote +++ task +++ dquote +++ ":"));
       EvScanTasksDir (_directory this) task]
        ++ trace_of (forEach (scanTasksDir E w (_directory this) task)
                             (_execItem E) w)
  /\ map Some (attempts (trace_of (runTask E this task w)))
     = map item_command
           (filter is_runnable (scanTasksDir E w (_directory this) task)).
Proof.
  intros Hin Hp.
  destruct (first_with_path_found _ _ _ Hin Hp) as [item [Hf [Hpi _]]].
  rewrite (runTask_known E this task item w Hf), execTask_run, Hpi.
  cbn [trace_of fst snd]. split; [reflexivity|].
  rewrite attempts_app. cbn [attempts app].
  apply attempts_forEach_execItem.
Qed.

Lemma runTask_runs_named_group_witness :
  map Some (attempts (trace_of (runTask Demo.env Demo.simply "deploy" [])))
  = [Some "node /srv/app/tasks/deploy/a.js";
     Some "node /srv/app/tasks/deploy/b.js";
     Some "/srv/app/tasks/deploy/run";
     Some "node /srv/app/tasks/deploy/c.js"].
Proof.
  apply (runTask_runs_named_group
           Demo.env Demo.simply "deploy" [] (Demo.entry "deploy" "directory")).
  - right. left. reflexivity.
  - reflexivity.
Defined.

Lemma list_entries_run {W : Type} (tasks : list Item) (w : W) :
  forEach tasks (fun t => fun w1 : W => (tt, [EvLog (Text ("-- " +++ path t))], w1)) w
  = (tt, map (fun t => EvLog (Text ("-- " +++ path t))) tasks, w).
Proof.
  induction tasks as [|t tasks IH]; [reflexivity|].
  rewrite forEach_cons. cbn [trace_of world_of fst snd].
  rewrite IH. reflexivity.
Qed.

(** Running the loop of [list]. *)
Ltac run_list_loop E :=
  unfold list_tasks, bind, scan_tasks;
  change (console_log (Text "The following tasks are available:") ?w)
    with (tt, [EvLog (Text "The following tasks are available:")], w);
  cbn iota beta;
  change (fun t : Item => console_log (Text ("-- " +++ path t)))
    with (fun t : Item => fun w1 : World E =>
                            (tt, [EvLog (Text ("-- " +++ path t))], w1));
  rewrite list_entries_run.

(** X3.  [list] prints its heading and then one line [-- <path>] for every
    entry of the catalogue, in catalogue order, and nothing more; with an
    empty catalogue the heading is all it prints.  It launches nothing and
    leaves the world as it was. *)
Theorem list_prints_catalogue (E : Env) (this : Simply) (w : World E) :
  list_tasks E this w
  = (tt,
     EvLog (Text "The following tasks are available:")
       :: EvGetTasks (_directory this)
       :: map (fun t => EvLog (Text ("-- " +++ path t)))
              (getTasks E w (_directory this)),
     w).
Proof. run_list_loop E. reflexivity. Qed.

(** X4.  [list] and [runTask] agree.  A name is printed by [list] as a line
    [-- <name>] exactly when [_getTask] resolves it in the same world,
    that is, when [runTask] runs it instead of reporting it as not found. *)
Theorem list_shows_what_runs
        (E : Env) (this : Simply) (task : string) (w : World E) :
  In (EvLog (Text ("-- " +++ task))) (trace_of (list_tasks E this w))
  <-> value_of (_getTask E this task w) <> None.
Proof.
  run_list_loop E. cbn [trace_of fst snd].
  unfold _getTask, bind, scan_tasks, ret. cbn [value_of fst].
  split.
  - intros [H|[H|H]]; [discriminate H|discriminate H|].
    apply in_map_iff in H. destruct H as [t [Heq Hin]].
    injection Heq as Heq.
    intro Hnone.
    apply (proj1 (first_with_path_none _ _) Hnone t Hin). exact Heq.
  - intro Hsome.
    destruct (first_with_path (getTasks E w (_directory this)) task)
      as [item|] eqn:Hf; [|contradiction].
    apply first_with_path_split in Hf.
    destruct Hf as [pre [post [Hscan [Hp _]]]].
    right. right. apply in_map_iff. exists item. split.
    + rewrite Hp. reflexivity.
    + rewrite Hscan. apply in_or_app. right. left. reflexivity.
Qed.

(** ** The constructor *)

Lemma or_string_stable (a : option string) (d : string) :
  or_string (Some (or_string a d)) d = or_string a d.
Proof.
  unfold or_string. destruct a as [s|].
  - destruct (s =? "") eqn:Hs.
    + destruct (d =? ""); reflexivity.
    + rewrite Hs. reflexivity.
  - destruct (d =? ""); reflexivity.
Qed.

(** X5.  The constructor is stable on its own result.  It writes the
    settings it resolved into the configuration object; a runner built
    from that object again has the same task directory and leaves the
    object as it is. *)
Theorem constructor_idempotent (E : Env) (config : option Config) :
  constructor E (Some (snd (constructor E config))) = constructor E config.
Proof.
  unfold constructor. cbn [snd rootDir tasksDir extBinary extScript extConfig
                           or_array].
  rewrite !or_string_stable. reflexivity.
Qed.

(** X6.  The settings after construction.  Whatever configuration is
    passed, also none, the configuration object afterwards has a root
    directory and a task directory name, the task directory name is not
    empty (an empty one is replaced by [tasks]), and the directory of the
    runner is the join of the two. *)
Theorem constructor_resolves_directory (E : Env) (config : option Config) :
  exists root tasks,
    rootDir (snd (constructor E config)) = Some root
    /\ tasksDir (snd (constructor E config)) = Some tasks
    /\ tasks <> ""
    /\ _directory (fst (constructor E config)) = path_join E root tasks.
Proof.
  unfold constructor. cbn [fst snd rootDir tasksDir _directory].
  eexists. eexists. repeat split.
  unfold or_string.
  destruct (tasksDir _) as [s|]; [|discriminate].
  destruct (String.eqb_spec s ""); [discriminate|assumption].
Qed.

(** ** Members that run and members that do not *)

(** X7.  A group without anything to run.  When no member of the group is
    a script or a binary, in particular when the scan of the group is
    empty, [_execTask] scans the group and does nothing else. *)
Theorem execTask_nothing_to_run
        (E : Env) (this : Simply) (group : Item) (w : World E) :
  forallb (fun m => negb (is_runnable m))
          (scanTasksDir E w (_directory this) (path group)) = true ->
  _execTask E this group w
  = (tt, [EvScanTasksDir (_directory this) (path group)], w).
Proof.
  intro H. rewrite execTask_run.
  assert (Hloop : forEach (scanTasksDir E w (_directory this) (path group))
                          (_execItem E) w = (tt, [], w)).
  { induction (scanTasksDir E w (_directory this) (path group))
      as [|m items IH]; [reflexivity|].
    cbn [forallb] in H. apply andb_true_iff in H. destruct H as [Hm Hrest].
    apply negb_true_iff in Hm.
    rewrite forEach_cons, (execItem_skip E m w)
      by (apply item_command_runnable, Hm).
    cbn [trace_of world_of fst snd]. rewrite (IH Hrest). reflexivity. }
  rewrite Hloop. reflexivity.
Qed.

Lemma execTask_nothing_to_run_witness :
  _execTask Demo.env Demo.simply (Demo.entry "docs" "directory") []
  = (tt, [EvScanTasksDir "/srv/app/tasks" "docs"], []).
Proof.
  apply (execTask_nothing_to_run
           Demo.env Demo.simply (Demo.entry "docs" "directory") []).
  reflexivity.
Defined.

(** X8.  A launch that succeeds.  The member is announced by a line with
    its absolute path, launched once, and what the command printed is
    printed after it, unless it printed nothing; no error is printed and
    the world is the one the command leaves. *)
Theorem execItem_success
        (E : Env) (item : Item) (command output : string) (w w2 : World E) :
  item_command item = Some command ->
  execSync E w command = (inr output, w2) ->
  _execItem E item w
  = (tt,
     [EvLog (Text ("- " +++ pathAbs item)); EvExec command]
       ++ (if output =? "" then [] else [EvLog (Text output)]),
     w2).
Proof.
  intros Hc Hx. rewrite (execItem_run E item command w Hc), Hx. reflexivity.
Qed.

Lemma execItem_success_witness :
  _execItem Sample.env (Demo.entry "build/compile.js" "script") []
  = (tt,
     [EvLog (Text "- /srv/app/tasks/build/compile.js");
      EvExec "node /srv/app/tasks/build/compile.js";
      EvLog (Text "done")],
     ["node /srv/app/tasks/build/compile.js"]).
Proof.
  apply (execItem_success
           Sample.env (Demo.entry "build/compile.js" "script")
           "node /srv/app/tasks/build/compile.js" "done" []
           ["node /srv/app/tasks/build/compile.js"]);
    reflexivity.
Defined.

(** ** More on the aggregation *)

Lemma reads_app (t1 t2 : list Event) :
  reads (t1 ++ t2) = reads t1 ++ reads t2.
Proof.
  induction t1 as [|e t1 IH]; [reflexivity|].
  destruct e; cbn; rewrite IH; reflexivity.
Qed.

Lemma reads_collect_entry (E : Env) (item : Item) (o : Obj) (w : World E) :
  reads (trace_of (collect_entry E item o w)) = [pathAbs item].
Proof.
  unfold collect_entry, bind, read_file, console_log, ret.
  destruct (readFileSync E w (pathAbs item)) as [error|data];
    [reflexivity|].
  destruct (JSON_parse E data) as [error|config]; [reflexivity|].
  destruct (merge_field config "dependencies" o) as [error|d1];
    [reflexivity|].
  destruct (merge_field config "devDependencies" d1); reflexivity.
Qed.

Lemma reads_collect (E : Env) (items : list Item) (o : Obj) (w : World E) :
  reads (trace_of (forAcc items (collect_entry E) o w)) = map pathAbs items.
Proof.
  revert o w. induction items as [|item items IH]; intros o w;
    [reflexivity|].
  rewrite forAcc_cons. cbn [trace_of fst snd].
  rewrite reads_app, reads_collect_entry, IH. reflexivity.
Qed.

(** X10.  The aggregation only reads.  [_getDependencies] reads the file
    of every config entry exactly once, in scan order, whether or not
    earlier entries failed; it launches nothing and leaves the world as it
    was. *)
Theorem getDependencies_reads_only (E : Env) (this : Simply) (w : World E) :
  reads (trace_of (_getDependencies E this w))
    = map pathAbs (getConfig E w (_directory this))
  /\ attempts (trace_of (_getDependencies E this w)) = []
  /\ world_of (_getDependencies E this w) = w.
Proof.
  split; [|split].
  - rewrite getDependencies_run. cbn [trace_of fst snd reads].
    apply reads_collect.
  - apply attempts_getDependencies.
  - rewrite getDependencies_run. reflexivity.
Qed.

(** X11.  A config file that holds [null].  The content parses, reading
    [dependencies] of it throws inside the [try], and the entry is treated
    like an unreadable one: the error is printed and the aggregate is left
    as it was. *)
Theorem collect_entry_null_config
        (E : Env) (item : Item) (data : string) (d : Obj) (w : World E) :
  readFileSync E w (pathAbs item) = inr data ->
  JSON_parse E data = inr JNull ->
  exists message,
    collect_entry E item d w
    = (d, [EvReadFile (pathAbs item); EvLog (Caught (TypeError message))], w).
Proof.
  intros Hr Hp. eexists.
  unfold collect_entry, bind, read_file, console_log, ret.
  rewrite Hr, Hp. reflexivity.
Qed.

Lemma collect_entry_null_config_witness :
  exists message,
    collect_entry Sample.env (Demo.entry "nothing/config.json" "config")
                  empty_object []
    = (empty_object,
       [EvReadFile "/srv/app/tasks/nothing/config.json";
        EvLog (Caught (TypeError message))],
       []).
Proof.
  apply (collect_entry_null_config
           Sample.env (Demo.entry "nothing/config.json" "config") "null"
           empty_object []);
    reflexivity.
Defined.

(** X12.  A config file without dependencies.  When the parsed content is
    not [null] and its [dependencies] and [devDependencies] are absent or
    falsy, the entry is read and nothing else happens: nothing is printed
    and the aggregate is left as it was. *)
Theorem collect_entry_without_dependencies
        (E : Env) (item : Item) (data : string) (config deps devs : Value)
        (d : Obj) (w : World E) :
  readFileSync E w (pathAbs item) = inr data ->
  JSON_parse E data = inr config ->
  getProp config "dependencies" = inr deps ->
  getProp config "devDependencies" = inr devs ->
  truthy deps = false ->
  truthy devs = false ->
  collect_entry E item d w = (d, [EvReadFile (pathAbs item)], w).
Proof.
  intros Hr Hp Hdeps Hdevs Htd Htv.
  unfold collect_entry, bind, read_file, console_log, ret.
  rewrite Hr, Hp. unfold merge_field.
  rewrite Hdeps, Htd, Hdevs, Htv. reflexivity.
Qed.

Lemma collect_entry_without_dependencies_witness :
  collect_entry Sample.env (Demo.entry "plain/config.json" "config")
                {| own := [("x", JString "1.0.0")]; proto := ObjectPrototype |}
                []
  = ({| own := [("x", JString "1.0.0")]; proto := ObjectPrototype |},
     [EvReadFile "/srv/app/tasks/plain/config.json"], []).
Proof.
  apply (collect_entry_without_dependencies
           Sample.env (Demo.entry "plain/config.json" "config")
           ("{" +++ Demo.quoted "name" +++ ":" +++ Demo.quoted "plain" +++ "}")
           (JObject [("name", JString "plain")]) JUndefined JUndefined
           {| own := [("x", JString "1.0.0")]; proto := ObjectPrototype |}
           []);
    reflexivity.
Defined.

Lemma lookup_some_in (k : string) (v : Value) (l : Props) :
  lookup k l = Some v -> In (k, v) l.
Proof.
  induction l as [|[a x] l IH]; cbn; [discriminate|].
  destruct (String.eqb_spec a k) as [Heq|Hne].
  - intros [= <-]. left. rewrite Heq. reflexivity.
  - intro H. right. apply IH, H.
Qed.

Lemma js_set_origin (o : Obj) (name k : string) (v x : Value) :
  lookup k (own (js_set o name v)) = Some x ->
  lookup k (own o) = Some x \/ (name = k /\ v = x).
Proof.
  destruct (js_set_cases o name v) as [[_ Hown]|Heq].
  - rewrite Hown. auto.
  - rewrite Heq. cbn [own]. rewrite lookup_put_own.
    destruct (String.eqb_spec name k) as [Hn|Hn]; [|auto].
    intros [= <-]. right. split; [exact Hn|reflexivity].
Qed.

Lemma apply_writes_origin (writes : Props) (o : Obj) (k : string) (x : Value) :
  lookup k (own (apply_writes writes o)) = Some x ->
  lookup k (own o) = Some x \/ In (k, x) writes.
Proof.
  revert o. induction writes as [|[name v] writes IH]; intros o H;
    [left; exact H|].
  cbn [apply_writes fold_left fst snd] in H.
  change (fold_left _ writes ?y) with (apply_writes writes y) in H.
  destruct (IH _ H) as [Hset|Hin]; [|right; right; exact Hin].
  destruct (js_set_origin _ _ _ _ _ Hset) as [Hown|[<- <-]];
    [left; exact Hown|right; left; reflexivity].
Qed.

Lemma field_writes_in (config : Value) (field k : string) (v : Value) :
  In (k, v) (field_writes config field) ->
  exists src,
    getProp config field = inr src
    /\ truthy src = true
    /\ In k (own_keys src)
    /\ v = js_get src k.
Proof.
  unfold field_writes.
  destruct (getProp config field) as [error|src]; [intros []|].
  destruct (truthy src) eqn:Ht; [|intros []].
  intro H. apply in_map_iff in H. destruct H as [key [Heq Hin]].
  injection Heq as <- <-. exists src. repeat split; assumption.
Qed.

(** X13.  Nothing is invented.  Every binding of the aggregate comes from
    a config entry of the scan: the file of the entry was read and parsed,
    and the key is an own key of its truthy [dependencies] or
    [devDependencies], with the value found there. *)
Theorem getDependencies_provenance
        (E : Env) (this : Simply) (w : World E) (k : string) (v : Value) :
  lookup k (own (value_of (_getDependencies E this w))) = Some v ->
  exists item data config field src,
    In item (getConfig E w (_directory this))
    /\ readFileSync E w (pathAbs item) = inr data
    /\ JSON_parse E data = inr config
    /\ (field = "dependencies" \/ field = "devDependencies")
    /\ getProp config field = inr src
    /\ truthy src = true
    /\ In k (own_keys src)
    /\ v = js_get src k.
Proof.
  rewrite getDependencies_run. cbn [value_of fst].
  rewrite collect_value. intro H.
  assert (Hin : In (k, v) (flat_map (entry_writes E w)
                                    (getConfig E w (_directory this)))).
  { destruct (apply_writes_origin _ _ _ _ H) as [Hown|Hin];
      [discriminate Hown|exact Hin]. }
  apply in_flat_map in Hin. destruct Hin as [item [Hitem Hw]].
  unfold entry_writes in Hw.
  destruct (readFileSync E w (pathAbs item)) as [error|data] eqn:Hr;
    [destruct Hw|].
  destruct (JSON_parse E data) as [error|config] eqn:Hp; [destruct Hw|].
  apply in_app_or in Hw.
  destruct Hw as [Hw|Hw]; apply field_writes_in in Hw;
    destruct Hw as [src [Hg [Ht [Hk Hv]]]].
  - exists item, data, config, "dependencies", src. repeat split; auto.
  - exists item, data, config, "devDependencies", src. repeat split; auto.
Qed.

Lemma getDependencies_provenance_witness :
  exists item data config field src,
    In item (getConfig Demo.env [] (_directory Demo.simply))
    /\ readFileSync Demo.env [] (pathAbs item) = inr data
    /\ JSON_parse Demo.env data = inr config
    /\ (field = "dependencies" \/ field = "devDependencies")
    /\ getProp config field = inr src
    /\ truthy src = true
    /\ In "y" (own_keys src)
    /\ JString "0.2.0" = js_get src "y".
Proof.
  apply (getDependencies_provenance
           Demo.env Demo.simply [] "y" (JString "0.2.0")).
  reflexivity.
Defined.

(** ** More on the installation *)

Lemma append_empty (s : string) : s +++ "" = s.
Proof. induction s as [|c s IH]; cbn; [reflexivity|rewrite IH; reflexivity]. Qed.

Lemma append_assoc (a b c : string) : (a +++ b) +++ c = a +++ b +++ c.
Proof.
  induction a as [|x a IH]; cbn; [reflexivity|rewrite IH; reflexivity].
Qed.

(** X14.  Nothing to install.  When the aggregate is empty, because there
    is no config entry or none gives a dependency, [install] prints its
    heading, aggregates, launches nothing and leaves the world as it
    was. *)
Theorem install_nothing_to_install
        (E : Env) (this : Simply) (save : bool) (w : World E) :
  own (value_of (_getDependencies E this w)) = [] ->
  install E this save w
  = (tt,
     EvLog (Text "Installing task dependencies...")
       :: trace_of (_getDependencies E this w),
     w).
Proof.
  intro H. rewrite install_run, H. cbn. rewrite app_nil_r. reflexivity.
Qed.

Lemma install_nothing_to_install_witness :
  install Sample.env Sample.simply true []
  = (tt,
     [EvLog (Text "Installing task dependencies...");
      EvGetConfig "/srv/app/tasks";
      EvReadFile "/srv/app/tasks/nothing/config.json";
      EvLog (Caught (TypeError "Cannot read property 'dependencies' of null"));
      EvReadFile "/srv/app/tasks/empty/config.json";
      EvReadFile "/srv/app/tasks/plain/config.json"],
     []).
Proof.
  apply (install_nothing_to_install Sample.env Sample.simply true []).
  reflexivity.
Defined.

(** X15.  The save flag.  With [save] the same packages are installed in
    the same order as without it, from the same world; every command line
    is the one without [save] followed by [ -D]. *)
Theorem install_save_appends_flag (E : Env) (this : Simply) (w : World E) :
  attempts (trace_of (install E this true w))
  = map (fun command => command +++ " -D")
        (attempts (trace_of (install E this false w))).
Proof.
  rewrite !install_run. cbn [trace_of fst snd attempts].
  rewrite !attempts_app, attempts_getDependencies.
  rewrite !attempts_install_entries. cbn [List.app].
  induction (own_keys _) as [|key keys IH]; [reflexivity|].
  cbn [flat_map]. rewrite map_app, <- IH. f_equal.
  rewrite !install_command_cases.
  destruct (ToString _) as [error|version]; [reflexivity|].
  cbn [map]. rewrite append_empty, !append_assoc. reflexivity.
Qed.

Lemma field_writes_keys (config : Value) (field k : string) (src : Value) :
  getProp config field = inr src ->
  truthy src = true ->
  In k (own_keys src) ->
  In k (map fst (field_writes config field)).
Proof.
  intros Hg Ht Hk. unfold field_writes. rewrite Hg, Ht, map_map. cbn.
  rewrite map_id. exact Hk.
Qed.

(** X16.  Nothing is lost.  Every own key other than [__proto__] of the
    truthy [dependencies] or [devDependencies] of a config entry that was
    read and parsed is bound in the aggregate. *)
Theorem getDependencies_keeps_every_key
        (E : Env) (this : Simply) (w : World E) (item : Item) (data : string)
        (config src : Value) (field k : string) :
  k <> "__proto__" ->
  In item (getConfig E w (_directory this)) ->
  readFileSync E w (pathAbs item) = inr data ->
  JSON_parse E data = inr config ->
  field = "dependencies" \/ field = "devDependencies" ->
  getProp config field = inr src ->
  truthy src = true ->
  In k (own_keys src) ->
  exists v, lookup k (own (value_of (_getDependencies E this w))) = Some v.
Proof.
  intros Hproto Hitem Hr Hp Hfield Hg Ht Hk.
  destruct (lookup k (own (value_of (_getDependencies E this w))))
    as [v|] eqn:Hl;
    [exists v; reflexivity|exfalso].
  rewrite (getDependencies_lookup E this w k Hproto) in Hl.
  assert (Hnone : lookup k (flat_map (entry_writes E w)
                                     (getConfig E w (_directory this))) = None).
  { apply lookup_rev_none_iff, Hl. }
  apply lookup_none in Hnone. apply Hnone.
  rewrite flat_map_concat_map, concat_map, map_map.
  apply in_concat. exists (map fst (entry_writes E w item)). split.
  - apply in_map_iff. exists item. split; [reflexivity|exact Hitem].
  - unfold entry_writes. rewrite Hr, Hp, map_app. apply in_or_app.
    destruct Hfield as [-> | ->];
      [left|right]; apply (field_writes_keys _ _ _ src); assumption.
Qed.

Lemma getDependencies_keeps_every_key_witness :
  exists v,
    lookup "y" (own (value_of (_getDependencies Demo.env Demo.simply [])))
    = Some v.
Proof.
  apply (getDependencies_keeps_every_key
           Demo.env Demo.simply []
           (Demo.entry "groupA/config.json" "config") Demo.textA Demo.valueA
           (JObject [("x", JString "1.0.0"); ("y", JString "0.1.0")])
           "dependencies" "y").
  - discriminate.
  - left. reflexivity.
  - reflexivity.
  - reflexivity.
  - left. reflexivity.
  - reflexivity.
  - reflexivity.
  - cbn. right. left. reflexivity.
Defined.
